(** * Web Scrobbler: the connector's state engine and the song pipeline

    A shallow embedding of [src/core/content/connector.js] (the state
    tracker, its filter step, the reset gate and the change listener of
    [BaseConnector]) and of the sequential song pipeline, together with the
    properties of the specification that are about them.

    JavaScript objects used as records ([currentState], [filteredState],
    the object built by [getCurrentState], the payload handed to the
    reactor) are finite maps from property names to values. *)

From stdpp Require Import base strings list sorting gmap fin_maps.
From Stdlib Require Import ZArith Lia.

Local Open Scope string_scope.
Local Open Scope list_scope.
Local Open Scope Z_scope.

(** ** JavaScript values *)

Module Js.

(** Numbers are whole seconds or [NaN]; [-0] and [0] are not told apart,
    which neither truthiness nor [===] does either.  Fractions and the
    infinities are left out, and a whole number stands for the double of
    that value, which exists for every magnitude up to 2^53. *)
Inductive number :=
| Fin (z : Z)
| NaN.

Inductive value :=
| Null
| Undefined
| Boolean (b : bool)
| Number (n : number)
| Str (s : string).

(** What the time getters hand out ([@return {Number}]): a number, or
    nothing. *)
Inductive timeval :=
| TNull
| TUndefined
| TNumber (n : number).

Definition of_timeval (t : timeval) : value :=
  match t with
  | TNull => Null
  | TUndefined => Undefined
  | TNumber n => Number n
  end.

#[global] Instance number_eq_dec : EqDecision number.
Proof. solve_decision. Defined.

#[global] Instance value_eq_dec : EqDecision value.
Proof. solve_decision. Defined.

(** [ToBoolean]. *)
Definition truthy (v : value) : bool :=
  match v with
  | Null | Undefined => false
  | Boolean b => b
  | Number (Fin z) => negb (z =? 0)
  | Number NaN => false
  | Str s => negb (String.eqb s EmptyString)
  end.

(** [a === b] on primitives. *)
Definition strict_eq (a b : value) : bool :=
  match a, b with
  | Null, Null => true
  | Undefined, Undefined => true
  | Boolean x, Boolean y => Bool.eqb x y
  | Number (Fin x), Number (Fin y) => x =? y
  | Str s, Str t => String.eqb s t
  | _, _ => false
  end.

(** [a || b]. *)
Definition js_or (a b : value) : value := if truthy a then a else b.

(** [ToNumber] on the values that reach arithmetic.  The operands of the
    one subtraction in the connector come from the time getters, so the
    string case is never met there. *)
Definition to_number (v : value) : number :=
  match v with
  | Null => Fin 0
  | Undefined => NaN
  | Boolean b => Fin (if b then 1 else 0)
  | Number n => n
  | Str _ => NaN
  end.

(** [Math.abs(v)]. *)
Definition Math_abs (v : value) : value :=
  match to_number v with
  | Fin z => Number (Fin (Z.abs z))
  | NaN => Number NaN
  end.

(** [a - b], for whole numbers whose difference has a magnitude of at most
    2^53: there the subtraction of doubles is exact.  Beyond that range
    the code rounds to the nearest double and this definition does not. *)
Definition js_minus (a b : value) : value :=
  match to_number a, to_number b with
  | Fin x, Fin y => Number (Fin (x - y))
  | _, _ => Number NaN
  end.

(** An object with string keys. *)
Abbreviation obj := (gmap string value).

(** [o[k]]: a property that is not there reads as [undefined]. *)
Definition get (k : string) (o : obj) : value := default Undefined (o !! k).

(** [o[k] = v]. *)
Definition set (k : string) (v : value) (o : obj) : obj := <[k := v]> o.

End Js.

Import Js.

(** ** The capability a connector supplies

    One [Page] is what the overridable getters of a connector answer at
    one instant of the document. *)

Record Page := {
  getTrack : value;
  getArtist : value;
  getAlbum : value;
  getUniqueID : value;
  getDuration : timeval;
  getCurrentTime : timeval;
  getRemainingTime : timeval;
  isPlaying : value;
  getTrackArt : value;
  getOriginUrl : value;
  (** [None]: the getter answered with something falsy *)
  getArtistTrack : option obj;
  getTimeInfo : obj;
  isTrackArtDefault : value -> value;
  isStateChangeAllowed : value;
  isScrobblingAllowed : value;
  (** [this.filter.filterField(field, text)] *)
  filterField : string -> value -> value
}.

(** Modelled from the spec: [Util.makeEmptyArtistTrack] is not part of the
    sources at hand; it is the artist-track pair with both parts absent. *)
Definition makeEmptyArtistTrack : obj :=
  {[ "artist" := Null; "track" := Null ]}.

(** [getCurrentState] *)
Definition getCurrentState (p : Page) : obj :=
  let newState : obj :=
    list_to_map
      [ ("track", getTrack p);
        ("artist", getArtist p);
        ("album", getAlbum p);
        ("uniqueID", getUniqueID p);
        ("duration", of_timeval (getDuration p));
        ("currentTime", of_timeval (getCurrentTime p));
        ("isPlaying", isPlaying p);
        ("trackArt", getTrackArt p);
        ("originUrl", getOriginUrl p) ] in
  let artistTrack := default makeEmptyArtistTrack (getArtistTrack p) in
  let newState :=
    if negb (truthy (get "artist" newState)) && truthy (get "artist" artistTrack)
    then set "artist" (get "artist" artistTrack) newState
    else newState in
  let newState :=
    if negb (truthy (get "track" newState)) && truthy (get "track" artistTrack)
    then set "track" (get "track" artistTrack) newState
    else newState in
  let newState :=
    if negb (truthy (get "currentTime" newState)) then
      let remainingTime := of_timeval (getRemainingTime p) in
      if truthy remainingTime && truthy (get "duration" newState)
      then set "currentTime"
             (js_minus (get "duration" newState) (Math_abs remainingTime))
             newState
      else newState
    else newState in
  let timeInfo := getTimeInfo p in
  let newState :=
    if negb (truthy (get "duration" newState)) && truthy (get "duration" timeInfo)
    then set "duration" (get "duration" timeInfo) newState
    else newState in
  let newState :=
    if negb (truthy (get "currentTime" newState))
       && truthy (get "currentTime" timeInfo)
    then set "currentTime" (get "currentTime" timeInfo) newState
    else newState in
  newState.

(** A page on which nothing is found and nothing is vetoed. *)
Definition blankPage : Page := {|
  getTrack := Str EmptyString;
  getArtist := Str EmptyString;
  getAlbum := Str EmptyString;
  getUniqueID := Null;
  getDuration := TNull;
  getCurrentTime := TNull;
  getRemainingTime := TNull;
  isPlaying := Boolean true;
  getTrackArt := Null;
  getOriginUrl := Str "https://example.org/";
  getArtistTrack := None;
  getTimeInfo := {[ "duration" := Null; "currentTime" := Null ]};
  isTrackArtDefault := fun _ => Boolean false;
  isStateChangeAllowed := Boolean true;
  isScrobblingAllowed := Boolean true;
  filterField := fun _ text => text
|}.

(** ** The state of one connector

    [currentState], [filteredState] and [isStateReset] are the variables
    closed over by [BaseConnector]; [reactorCallback] tells whether a
    callback is registered (it is [null] otherwise).  [timer] is the state
    of the throttled wrapper.  The remaining fields are observations of a
    run and are read by no operation: the reactor invocations in order,
    each with the content of its first argument at the time of the call;
    the number of runs of [stateChangedWorker]; the instants at which the
    throttled wrapper was called; the instants at which its timer fired. *)

Record Connector := {
  currentState : obj;
  filteredState : obj;
  isStateReset : bool;
  reactorCallback : bool;
  timer : option Z;
  calls : list (obj * list string);
  workerRuns : nat;
  deferred : list Z;
  fired : list Z
}.

Definition defaultEntries : list (string * value) :=
  [ ("track", Null);
    ("artist", Null);
    ("album", Null);
    ("uniqueID", Null);
    ("duration", Null);
    ("currentTime", Null);
    ("isPlaying", Boolean true);
    ("trackArt", Null) ].

Definition defaultState : obj := list_to_map defaultEntries.

(** [Object.keys(defaultState)], which is also the order in which
    [for (let key in currentState)] visits the properties. *)
Definition stateKeys : list string := defaultEntries.*1.

Definition with_currentState (o : obj) (c : Connector) : Connector :=
  {| currentState := o; filteredState := filteredState c;
     isStateReset := isStateReset c; reactorCallback := reactorCallback c;
     timer := timer c; calls := calls c; workerRuns := workerRuns c;
     deferred := deferred c; fired := fired c |}.

Definition with_filteredState (o : obj) (c : Connector) : Connector :=
  {| currentState := currentState c; filteredState := o;
     isStateReset := isStateReset c; reactorCallback := reactorCallback c;
     timer := timer c; calls := calls c; workerRuns := workerRuns c;
     deferred := deferred c; fired := fired c |}.

Definition with_isStateReset (b : bool) (c : Connector) : Connector :=
  {| currentState := currentState c; filteredState := filteredState c;
     isStateReset := b; reactorCallback := reactorCallback c;
     timer := timer c; calls := calls c; workerRuns := workerRuns c;
     deferred := deferred c; fired := fired c |}.

Definition with_timer (t : option Z) (c : Connector) : Connector :=
  {| currentState := currentState c; filteredState := filteredState c;
     isStateReset := isStateReset c; reactorCallback := reactorCallback c;
     timer := t; calls := calls c; workerRuns := workerRuns c;
     deferred := deferred c; fired := fired c |}.

(** [this.reactorCallback(payload, changedFields)] under its [!== null]
    guard. *)
Definition callReactor (payload : obj) (changedFields : list string)
    (c : Connector) : Connector :=
  if reactorCallback c then
    {| currentState := currentState c; filteredState := filteredState c;
       isStateReset := isStateReset c; reactorCallback := reactorCallback c;
       timer := timer c; calls := calls c ++ [(payload, changedFields)];
       workerRuns := workerRuns c; deferred := deferred c; fired := fired c |}
  else c.

Definition noteRun (c : Connector) : Connector :=
  {| currentState := currentState c; filteredState := filteredState c;
     isStateReset := isStateReset c; reactorCallback := reactorCallback c;
     timer := timer c; calls := calls c; workerRuns := S (workerRuns c);
     deferred := deferred c; fired := fired c |}.

Definition noteDeferred (now : Z) (c : Connector) : Connector :=
  {| currentState := currentState c; filteredState := filteredState c;
     isStateReset := isStateReset c; reactorCallback := reactorCallback c;
     timer := timer c; calls := calls c; workerRuns := workerRuns c;
     deferred := deferred c ++ [now]; fired := fired c |}.

Definition noteFired (at_ : Z) (c : Connector) : Connector :=
  {| currentState := currentState c; filteredState := filteredState c;
     isStateReset := isStateReset c; reactorCallback := reactorCallback c;
     timer := timer c; calls := calls c; workerRuns := workerRuns c;
     deferred := deferred c; fired := fired c ++ [at_] |}.

(** A connector as [new BaseConnector()] leaves it, with or without a
    reactor callback. *)
Definition freshConnector (withReactor : bool) : Connector :=
  {| currentState := defaultState; filteredState := defaultState;
     isStateReset := false; reactorCallback := withReactor;
     timer := None; calls := []; workerRuns := 0%nat;
     deferred := []; fired := [] |}.

(** ** [stateChangedWorker] and [filterState] *)

(** The value the loop of [stateChangedWorker] compares and stores for
    [key]. *)
Definition newValueOf (newState : obj) (key : string) : value :=
  if truthy (get key newState) || strict_eq (get key newState) (Boolean false)
  then get key newState
  else get key defaultState.

(** One turn of the loop over the keys: the raw snapshot and the changed
    fields so far. *)
Definition diffStep (newState : obj) (acc : obj * list string) (key : string)
    : obj * list string :=
  let newValue := newValueOf newState key in
  let oldValue := get key acc.1 in
  if negb (strict_eq newValue oldValue)
  then (set key newValue acc.1, acc.2 ++ [key])
  else acc.

Definition diff (newState : obj) (cur : obj) : obj * list string :=
  foldl (diffStep newState) (cur, []) stateKeys.

(** Modelled from the spec: [Util.escapeBadTimeValues] is not part of the
    sources at hand; the guard turns a negative or [NaN] time into the
    default. *)
Definition escapeBadTimeValues (v : value) : value :=
  match v with
  | Number (Fin z) => if z <? 0 then Null else v
  | Number NaN => Null
  | _ => v
  end.

Definition isTextField (field : string) : bool :=
  String.eqb field "artist" || String.eqb field "track"
  || String.eqb field "album".

Definition isTimeField (field : string) : bool :=
  String.eqb field "currentTime" || String.eqb field "duration".

(** The body of the [switch] in [filterState]. *)
Definition filteredValue (p : Page) (field : string) (fieldValue : value)
    : value :=
  if isTextField field then
    js_or (filterField p field fieldValue) (get field defaultState)
  else if isTimeField field then
    js_or (escapeBadTimeValues fieldValue) (get field defaultState)
  else if String.eqb field "trackArt" then
    if truthy (isTrackArtDefault p fieldValue) then Null else fieldValue
  else fieldValue.

Definition filterState (p : Page) (changedFields : list string)
    (c : Connector) : Connector :=
  foldl
    (fun c field =>
       let fieldValue := get field (currentState c) in
       with_filteredState
         (set field (filteredValue p field fieldValue) (filteredState c)) c)
    c changedFields.

(** The report to [TestReporter] sits between [@ifdef DEBUG] and [@endif]
    and is not part of a release build. *)
Definition stateChangedWorker (p : Page) (c : Connector) : Connector :=
  let newState := getCurrentState p in
  let r := diff newState (currentState c) in
  let changedFields := r.2 in
  let c := with_currentState r.1 (noteRun c) in
  if (0 <? length changedFields)%nat then
    let c := filterState p changedFields c in
    callReactor (filteredState c) changedFields c
  else c.

(** The ChangeSet an evaluation of [p] computes from [c]. *)
Abbreviation changeSet p c := ((diff (getCurrentState p) (currentState c)).2).

(** ** The throttle, the change listener and the reset *)

Definition throttleWait : Z := 500.

(** Modelled from the spec: [Util.throttle] is not part of the sources at
    hand.  Section 4.2 and section 5 describe it: the first call opens a
    fixed window of 500 ms by arming one timer; calls inside an open
    window are folded into the evaluation pending at its end; the timer
    always fires, runs the evaluation once and leaves the wrapper idle. *)
Definition stateChangedWorkerThrottled (now : Z) (c : Connector) : Connector :=
  let c := noteDeferred now c in
  match timer c with
  | None => with_timer (Some (now + throttleWait)) c
  | Some _ => c
  end.

(** Modelled from the spec: the timer armed by the throttled wrapper goes
    off while the document shows [p]; the wrapper is idle again and the
    evaluation runs once. *)
Definition timerFired (p : Page) (c : Connector) : Connector :=
  match timer c with
  | Some due => stateChangedWorker p (noteFired due (with_timer None c))
  | None => c
  end.

(** [resetState] *)
Definition resetState (c : Connector) : Connector :=
  if isStateReset c then c
  else with_isStateReset true (callReactor ∅ stateKeys c).

(** [onStateChanged], called at instant [now] while the document
    shows [p]. *)
Definition onStateChanged (now : Z) (p : Page) (c : Connector) : Connector :=
  if negb (truthy (isScrobblingAllowed p)) then resetState c
  else if negb (truthy (isStateChangeAllowed p)) then c
  else
    let c := with_isStateReset false c in
    let isPlaying_ := isPlaying p in
    if negb (strict_eq isPlaying_ (get "isPlaying" (currentState c)))
    then stateChangedWorker p c
    else stateChangedWorkerThrottled now c.

(** *** Runs of one connector *)

Inductive event :=
| StateChanged (now : Z) (p : Page)
| TimerFired (p : Page)
| ResetState.

Definition step (e : event) (c : Connector) : Connector :=
  match e with
  | StateChanged now p => onStateChanged now p c
  | TimerFired p => timerFired p c
  | ResetState => resetState c
  end.

Definition run (es : list event) (c : Connector) : Connector :=
  foldl (fun c e => step e c) c es.

(** The signal gets past both gates of [onStateChanged]. *)
Definition passes (e : event) : bool :=
  match e with
  | StateChanged _ p =>
      truthy (isScrobblingAllowed p) && truthy (isStateChangeAllowed p)
  | _ => false
  end.

(** The event ends in a call of [resetState]. *)
Definition resets (e : event) : bool :=
  match e with
  | StateChanged _ p => negb (truthy (isScrobblingAllowed p))
  | TimerFired _ => false
  | ResetState => true
  end.

(** *** Runs against a clock

    [document t] is what the getters answer at instant [t].  Change
    signals arrive at the instants of a list; a timer that is due goes off
    before a later signal is handled, and [finish] lets the last pending
    timer go off. *)

Definition settle (document : Z -> Page) (now : Z) (c : Connector)
    : Connector :=
  match timer c with
  | Some due => if due <=? now then timerFired (document due) c else c
  | None => c
  end.

Fixpoint drive (document : Z -> Page) (signals : list Z) (c : Connector)
    : Connector :=
  match signals with
  | [] => c
  | t :: rest =>
      drive document rest (onStateChanged t (document t) (settle document t c))
  end.

Definition finish (document : Z -> Page) (c : Connector) : Connector :=
  match timer c with
  | Some due => timerFired (document due) c
  | None => c
  end.

(** The instants at which the timer goes off when the throttled wrapper is
    called at the instants [ds], starting with [pending]. *)
Fixpoint firings (pending : option Z) (ds : list Z) : list Z :=
  match ds with
  | [] => match pending with Some due => [due] | None => [] end
  | t :: rest =>
      match pending with
      | Some due =>
          if due <=? t then due :: firings (Some (t + throttleWait)) rest
          else firings (Some due) rest
      | None => firings (Some (t + throttleWait)) rest
      end
  end.

(** Neighbours lie at least one window apart. *)
Fixpoint spaced (l : list Z) : Prop :=
  match l with
  | a :: (b :: _) as tl => a + throttleWait <= b /\ spaced tl
  | _ => True
  end.

(** ** The song pipeline *)

Module SongPipeline.

(** Modelled from the spec: the class [SongPipeline] is not part of the
    sources at hand, only its test is.  Section 4.5 and section 9: a stage
    processes the track, changing it in place, and either resolves or
    rejects; the pipeline holds the ordered stages and calls them in a loop
    with early exit on the first rejection. *)
Definition Stage (Song Error : Type) : Type := Song -> Song * option Error.

(** The result of one [process]: the track as the stages left it, the
    stages that were called, in order, and the rejection if there was
    one. *)
Record Outcome (Song Error : Type) := {
  track : Song;
  called : list (Stage Song Error);
  rejection : option Error
}.

Arguments track {Song Error}.
Arguments called {Song Error}.
Arguments rejection {Song Error}.

Fixpoint process {Song Error : Type} (stages : list (Stage Song Error))
    (song : Song) : Outcome Song Error :=
  match stages with
  | [] => {| track := song; called := []; rejection := None |}
  | stage :: rest =>
      match stage song with
      | (song', Some e) =>
          {| track := song'; called := [stage]; rejection := Some e |}
      | (song', None) =>
          let o := process rest song' in
          {| track := track o; called := stage :: called o;
             rejection := rejection o |}
      end
  end.

(** The track after the stages have worked on it one after the other. *)
Definition threaded {Song Error : Type} (stages : list (Stage Song Error))
    (song : Song) : Song :=
  foldl (fun s (stage : Stage Song Error) => (stage s).1) song stages.

End SongPipeline.

(** ** Documents used in the examples *)

(** A page that shows a song. *)
Definition songPage : Page := {|
  getTrack := Str "Song";
  getArtist := Str "Artist";
  getAlbum := Str EmptyString;
  getUniqueID := Null;
  getDuration := TNumber (Fin 200);
  getCurrentTime := TNumber (Fin 5);
  getRemainingTime := TNull;
  isPlaying := Boolean true;
  getTrackArt := Null;
  getOriginUrl := Str "https://example.org/";
  getArtistTrack := None;
  getTimeInfo := {[ "duration" := Null; "currentTime" := Null ]};
  isTrackArtDefault := fun _ => Boolean false;
  isStateChangeAllowed := Boolean true;
  isScrobblingAllowed := Boolean true;
  filterField := fun _ text => text
|}.

(** The same document while an advertisement is on. *)
Definition advertPage : Page := {|
  getTrack := Str "Song";
  getArtist := Str "Artist";
  getAlbum := Str EmptyString;
  getUniqueID := Null;
  getDuration := TNumber (Fin 200);
  getCurrentTime := TNumber (Fin 5);
  getRemainingTime := TNull;
  isPlaying := Boolean true;
  getTrackArt := Null;
  getOriginUrl := Str "https://example.org/";
  getArtistTrack := None;
  getTimeInfo := {[ "duration" := Null; "currentTime" := Null ]};
  isTrackArtDefault := fun _ => Boolean false;
  isStateChangeAllowed := Boolean true;
  isScrobblingAllowed := Boolean false;
  filterField := fun _ text => text
|}.

(** A document that shows the remaining time only. *)
Definition remainingOnlyPage : Page := {|
  getTrack := Str "Song";
  getArtist := Str "Artist";
  getAlbum := Str EmptyString;
  getUniqueID := Null;
  getDuration := TNull;
  getCurrentTime := TNull;
  getRemainingTime := TNumber (Fin 30);
  isPlaying := Boolean true;
  getTrackArt := Null;
  getOriginUrl := Str "https://example.org/";
  getArtistTrack := None;
  getTimeInfo := {[ "duration" := Null; "currentTime" := Null ]};
  isTrackArtDefault := fun _ => Boolean false;
  isStateChangeAllowed := Boolean true;
  isScrobblingAllowed := Boolean true;
  filterField := fun _ text => text
|}.

(** The same document with the duration next to the remaining time. *)
Definition remainingPage : Page := {|
  getTrack := Str "Song";
  getArtist := Str "Artist";
  getAlbum := Str EmptyString;
  getUniqueID := Null;
  getDuration := TNumber (Fin 200);
  getCurrentTime := TNull;
  getRemainingTime := TNumber (Fin 30);
  isPlaying := Boolean true;
  getTrackArt := Null;
  getOriginUrl := Str "https://example.org/";
  getArtistTrack := None;
  getTimeInfo := {[ "duration" := Null; "currentTime" := Null ]};
  isTrackArtDefault := fun _ => Boolean false;
  isStateChangeAllowed := Boolean true;
  isScrobblingAllowed := Boolean true;
  filterField := fun _ text => text
|}.

(** The advertisement page while the document is also in flux. *)
Definition fluxPage (scrobbling : bool) : Page := {|
  getTrack := Str "Other";
  getArtist := Str "Artist";
  getAlbum := Str EmptyString;
  getUniqueID := Null;
  getDuration := TNumber (Fin 100);
  getCurrentTime := TNumber (Fin 1);
  getRemainingTime := TNull;
  isPlaying := Boolean false;
  getTrackArt := Null;
  getOriginUrl := Str "https://example.org/";
  getArtistTrack := None;
  getTimeInfo := {[ "duration" := Null; "currentTime" := Null ]};
  isTrackArtDefault := fun _ => Boolean false;
  isStateChangeAllowed := Boolean false;
  isScrobblingAllowed := Boolean scrobbling;
  filterField := fun _ text => text
|}.

(** The song of [songPage], paused. *)
Definition pausedPage : Page := {|
  getTrack := Str "Song";
  getArtist := Str "Artist";
  getAlbum := Str EmptyString;
  getUniqueID := Null;
  getDuration := TNumber (Fin 200);
  getCurrentTime := TNumber (Fin 5);
  getRemainingTime := TNull;
  isPlaying := Boolean false;
  getTrackArt := Null;
  getOriginUrl := Str "https://example.org/";
  getArtistTrack := None;
  getTimeInfo := {[ "duration" := Null; "currentTime" := Null ]};
  isTrackArtDefault := fun _ => Boolean false;
  isStateChangeAllowed := Boolean true;
  isScrobblingAllowed := Boolean true;
  filterField := fun _ text => text
|}.

(** A document whose filter strips the whole title. *)
Definition strippedPage : Page := {|
  getTrack := Str "(Official Video)";
  getArtist := Str EmptyString;
  getAlbum := Str EmptyString;
  getUniqueID := Null;
  getDuration := TNull;
  getCurrentTime := TNull;
  getRemainingTime := TNull;
  isPlaying := Boolean true;
  getTrackArt := Null;
  getOriginUrl := Str "https://example.org/";
  getArtistTrack := None;
  getTimeInfo := {[ "duration" := Null; "currentTime" := Null ]};
  isTrackArtDefault := fun _ => Boolean false;
  isStateChangeAllowed := Boolean true;
  isScrobblingAllowed := Boolean true;
  filterField := fun field text =>
    if truthy text && String.eqb field "track" then Str EmptyString else text
|}.

(** A document that shows empty text and zeroes. *)
Definition zeroPage (playing : bool) : Page := {|
  getTrack := Str EmptyString;
  getArtist := Str EmptyString;
  getAlbum := Str EmptyString;
  getUniqueID := Str EmptyString;
  getDuration := TNumber (Fin 0);
  getCurrentTime := TNumber (Fin 0);
  getRemainingTime := TNull;
  isPlaying := Boolean playing;
  getTrackArt := Str EmptyString;
  getOriginUrl := Str "https://example.org/";
  getArtistTrack := None;
  getTimeInfo := {[ "duration" := Null; "currentTime" := Null ]};
  isTrackArtDefault := fun _ => Boolean false;
  isStateChangeAllowed := Boolean true;
  isScrobblingAllowed := Boolean true;
  filterField := fun _ text => text
|}.

(** ** Text as UTF-16 code units

    The connectors below work on the characters of a string; there a
    string is the list of its UTF-16 code units. *)

Module JsText.

Definition isHighSurrogate (u : Z) : bool := (55296 <=? u) && (u <=? 56319).

Definition isLowSurrogate (u : Z) : bool := (56320 <=? u) && (u <=? 57343).

(** [for (let character of text)]: the string iterator hands out code
    points, a surrogate pair as one character of two units. *)
Fixpoint characters (s : list Z) : list (list Z) :=
  match s with
  | [] => []
  | h :: rest =>
      match rest with
      | l :: rest' =>
          if isHighSurrogate h && isLowSurrogate l
          then [h; l] :: characters rest'
          else [h] :: characters rest
      | [] => [[h]]
      end
  end.

(** [String.fromCharCode(n)] *)
Definition fromCharCode (n : Z) : list Z := [n mod 65536].

Fixpoint lastIndexFrom (c : Z) (s : list Z) (i found : Z) : Z :=
  match s with
  | [] => found
  | u :: rest => lastIndexFrom c rest (i + 1) (if u =? c then i else found)
  end.

(** [s.lastIndexOf(c)] for a search string of the one unit [c]; [-1] when
    there is none. *)
Definition lastIndexOf (c : Z) (s : list Z) : Z := lastIndexFrom c s 0 (-1).

(** [s.substring(from, to)]: both ends are clamped to the string and
    swapped when they come in the wrong order. *)
Definition substring (from to : Z) (s : list Z) : list Z :=
  let len := Z.of_nat (length s) in
  let a := Z.max 0 (Z.min from len) in
  let b := Z.max 0 (Z.min to len) in
  take (Z.to_nat (Z.max a b - Z.min a b)) (drop (Z.to_nat (Z.min a b)) s).

End JsText.

(** ** [connectors/recmusic.js] *)

Module Recmusic.

Import JsText.

Definition katakanaHanToZenMap : gmap (list Z) (list Z) :=
  list_to_map [
    ([65377], [12290]); ([65378], [12300]); ([65379], [12301]);
    ([65380], [12289]); ([65381], [12539]); ([65382], [12530]);
    ([65383], [12449]); ([65384], [12451]); ([65385], [12453]);
    ([65386], [12455]); ([65387], [12457]); ([65388], [12515]);
    ([65389], [12517]); ([65390], [12519]); ([65391], [12483]);
    ([65392], [12540]); ([65393], [12450]); ([65394], [12452]);
    ([65395], [12454]); ([65396], [12456]); ([65397], [12458]);
    ([65398], [12459]); ([65399], [12461]); ([65400], [12463]);
    ([65401], [12465]); ([65402], [12467]); ([65403], [12469]);
    ([65404], [12471]); ([65405], [12473]); ([65406], [12475]);
    ([65407], [12477]); ([65408], [12479]); ([65409], [12481]);
    ([65410], [12484]); ([65411], [12486]); ([65412], [12488]);
    ([65413], [12490]); ([65414], [12491]); ([65415], [12492]);
    ([65416], [12493]); ([65417], [12494]); ([65418], [12495]);
    ([65419], [12498]); ([65420], [12501]); ([65421], [12504]);
    ([65422], [12507]); ([65423], [12510]); ([65424], [12511]);
    ([65425], [12512]); ([65426], [12513]); ([65427], [12514]);
    ([65428], [12516]); ([65429], [12518]); ([65430], [12520]);
    ([65431], [12521]); ([65432], [12522]); ([65433], [12523]);
    ([65434], [12524]); ([65435], [12525]); ([65436], [12527]);
    ([65437], [12531]) ].

(** The text [undefined], which [+=] appends for a key the table lacks. *)
Definition undefinedText : list Z :=
  [117; 110; 100; 101; 102; 105; 110; 101; 100].

(** One turn of the loop of [katakanaHanToZen]; [None] is the
    [TypeError] of reading the last character of an empty output. *)
Definition katakanaStep (textOutput character : list Z) : option (list Z) :=
  match head character with
  | Some charCode =>
      if (65377 <=? charCode) && (charCode <=? 65437) then
        Some (textOutput
              ++ default undefinedText (katakanaHanToZenMap !! character))
      else if (charCode =? 65438) || (charCode =? 65439) then
        match last textOutput with
        | Some lastCharCode =>
            Some (removelast textOutput
                  ++ fromCharCode (lastCharCode + charCode - 65437))
        | None => None
        end
      else Some (textOutput ++ character)
  | None => Some (textOutput ++ character)
  end.

(** The loop goes on only as long as nothing has been thrown. *)
Definition katakanaLoop (textOutput : option (list Z)) (character : list Z)
    : option (list Z) :=
  match textOutput with
  | Some out => katakanaStep out character
  | None => None
  end.

Definition katakanaHanToZen (text : list Z) : option (list Z) :=
  foldl katakanaLoop (Some []) (characters text).

(** A code unit of the half-width block the function rewrites: the
    punctuation and letters of the table, and the two sound marks. *)
Definition isHalfWidth (u : Z) : bool := (65377 <=? u) && (u <=? 65439).

Definition isSoundMark (u : Z) : bool := (u =? 65438) || (u =? 65439).

(** The table has a one-unit entry for [u], from the block of full-width
    punctuation and katakana. *)
Definition tableEntryOk (u : Z) : bool :=
  match katakanaHanToZenMap !! [u] with
  | Some [z] => (12288 <=? z) && (z <=? 12543)
  | _ => false
  end.

End Recmusic.

(** ** [connectors/youtube-music.js] *)

Module YoutubeMusic.

Import JsText.

(** [Connector.getTrackArt], given what
    [Util.extractImageUrlFromSelectors] found ([None]: [null]). *)
Definition getTrackArt (trackArtUrl : option (list Z)) : option (list Z) :=
  match trackArtUrl with
  | Some (u :: url) =>
      Some (substring 0 (lastIndexOf 61 (u :: url)) (u :: url))
  | _ => None
  end.

End YoutubeMusic.

(** ** [injectScript] and the messages of injected scripts *)

(** What [injectScript] touches outside the connector: the registry
    [window.webScrobblerScripts] ([None] while the property is not there),
    the scripts handed to [Util.injectScriptIntoDocument] in order, and
    the number of [message] listeners added to the window. *)
Record Window := {
  webScrobblerScripts : option obj;
  injectedScripts : list string;
  messageListeners : nat
}.

Definition freshWindow : Window :=
  {| webScrobblerScripts := None; injectedScripts := [];
     messageListeners := 0%nat |}.

(** [injectScript]. A property the registry does not own is looked up on
    [Object.prototype]; [inherited] tells for which names that lookup
    answers with something truthy. *)
Definition injectScript (inherited : string -> bool) (scriptFile : string)
    (w : Window) : Window :=
  let scripts := default ∅ (webScrobblerScripts w) in
  let registered :=
    match scripts !! scriptFile with
    | Some v => truthy v
    | None => inherited scriptFile
    end in
  if registered then
    {| webScrobblerScripts := Some scripts;
       injectedScripts := injectedScripts w;
       messageListeners := messageListeners w |}
  else
    {| webScrobblerScripts := Some (set scriptFile (Boolean true) scripts);
       injectedScripts := injectedScripts w ++ [scriptFile];
       messageListeners := S (messageListeners w) |}.

(** How often [onScriptEvent] runs for one message whose
    [event.data.sender] is [sender]: every listener added by
    [injectScript] looks at the message. *)
Definition scriptEventsFor (sender : value) (w : Window) : nat :=
  if negb (strict_eq sender (Str "web-scrobbler")) then 0%nat
  else messageListeners w.

(** [injectScript] for one file after the other. *)
Definition injectAll (inherited : string -> bool) (scriptFiles : list string)
    (w : Window) : Window :=
  foldl (fun w scriptFile => injectScript inherited scriptFile w) w scriptFiles.

(** The registry and the record of injections tell the same story. *)
Definition consistent (w : Window) : Prop :=
  NoDup (injectedScripts w) /\
  messageListeners w = length (injectedScripts w) /\
  forall scriptFile,
    (scriptFile ∈ injectedScripts w ->
     default ∅ (webScrobblerScripts w) !! scriptFile = Some (Boolean true)) /\
    (is_Some (default ∅ (webScrobblerScripts w) !! scriptFile) ->
     scriptFile ∈ injectedScripts w).

(** ** Predicates on the state of a connector *)

(** The properties of a snapshot are the fields of the state. *)
Definition shaped (o : obj) : Prop :=
  forall key, is_Some (o !! key) <-> key ∈ stateKeys.

(** A value the loop of [stateChangedWorker] can have stored for [key]. *)
Definition storable (key : string) (v : value) : Prop :=
  truthy v = true \/ v = Boolean false \/ v = get key defaultState.

Definition tidy (c : Connector) : Prop :=
  forall key, key ∈ stateKeys -> storable key (get key (currentState c)).

(** A document whose playing flag cannot be read. *)
Definition undecidedPage : Page := {|
  getTrack := Str "Song";
  getArtist := Str "Artist";
  getAlbum := Str EmptyString;
  getUniqueID := Null;
  getDuration := TNumber (Fin 200);
  getCurrentTime := TNumber (Fin 5);
  getRemainingTime := TNull;
  isPlaying := Undefined;
  getTrackArt := Null;
  getOriginUrl := Str "https://example.org/";
  getArtistTrack := None;
  getTimeInfo := {[ "duration" := Null; "currentTime" := Null ]};
  isTrackArtDefault := fun _ => Boolean false;
  isStateChangeAllowed := Boolean true;
  isScrobblingAllowed := Boolean true;
  filterField := fun _ text => text
|}.


(** A call of the reactor as the code can make it: the call of a reset,
    with the empty object and every field name, or the call of an
    evaluation, with a whole snapshot and the fields that changed. *)
Definition wellFormedCall (call : obj * list string) : Prop :=
  call = (∅, stateKeys) \/
  (shaped call.1 /\ call.2 <> [] /\ call.2 `sublist_of` stateKeys).

(** * Properties *)

(** ** Values and objects *)

Lemma strict_eq_true (a b : value) : strict_eq a b = true -> a = b.
Proof.
  destruct a as [| |x|[x|]|x], b as [| |y|[y|]|y]; simpl; try discriminate;
    try reflexivity.
  - intros H. apply Bool.eqb_prop in H. congruence.
  - intros H. apply Z.eqb_eq in H. congruence.
  - intros H. apply String.eqb_eq in H. congruence.
Qed.

Lemma strict_eq_refl (a : value) : a <> Number NaN -> strict_eq a a = true.
Proof.
  destruct a as [| |x|[x|]|x]; simpl; intros H; try reflexivity.
  - apply Bool.eqb_reflx.
  - apply Z.eqb_refl.
  - contradiction.
  - apply String.eqb_refl.
Qed.

Lemma get_set_eq (k : string) (v : value) (o : obj) : get k (set k v o) = v.
Proof. unfold get, set. by rewrite lookup_insert_eq. Qed.

Lemma get_set_ne (k k' : string) (v : value) (o : obj) :
  k <> k' -> get k (set k' v o) = get k o.
Proof. intros H. unfold get, set. by rewrite lookup_insert_ne. Qed.

Lemma get_insert_eq (k : string) (v : value) (o : obj) :
  get k (<[k := v]> o) = v.
Proof. apply get_set_eq. Qed.

Lemma get_insert_ne (k k' : string) (v : value) (o : obj) :
  k <> k' -> get k (<[k' := v]> o) = get k o.
Proof. apply get_set_ne. Qed.

Lemma get_if_set_ne (k k' : string) (b : bool) (v : value) (o : obj) :
  k <> k' -> get k (if b then set k' v o else o) = get k o.
Proof. intros H. destruct b; [by apply get_set_ne | reflexivity]. Qed.

Lemma get_if_set_eq (k : string) (b : bool) (v : value) (o : obj) :
  get k (if b then set k v o else o) = if b then v else get k o.
Proof. destruct b; [apply get_set_eq | reflexivity]. Qed.

(** Splitting a conjunction without touching its equations. *)
Ltac conjuncts := repeat match goal with |- _ /\ _ => split end.

(** Reading a property through the conditional assignments of
    [getCurrentState]. *)
Ltac obj_read :=
  repeat first
    [ rewrite get_if_set_eq
    | rewrite get_set_eq
    | rewrite get_insert_eq
    | rewrite get_if_set_ne by discriminate
    | rewrite get_set_ne by discriminate
    | rewrite get_insert_ne by discriminate ].

(** ** What [getCurrentState] resolves *)

(** Before the time fallbacks, the object holds what the direct time
    getters answered. *)
Lemma getCurrentState_shape (p : Page) :
  exists o : obj,
    get "duration" o = of_timeval (getDuration p) /\
    get "currentTime" o = of_timeval (getCurrentTime p) /\
    get "isPlaying" o = isPlaying p /\
    getCurrentState p =
      let newState :=
        if negb (truthy (get "currentTime" o)) then
          let remainingTime := of_timeval (getRemainingTime p) in
          if truthy remainingTime && truthy (get "duration" o)
          then set "currentTime"
                 (js_minus (get "duration" o) (Math_abs remainingTime)) o
          else o
        else o in
      let timeInfo := getTimeInfo p in
      let newState :=
        if negb (truthy (get "duration" newState))
           && truthy (get "duration" timeInfo)
        then set "duration" (get "duration" timeInfo) newState
        else newState in
      if negb (truthy (get "currentTime" newState))
         && truthy (get "currentTime" timeInfo)
      then set "currentTime" (get "currentTime" timeInfo) newState
      else newState.
Proof.
  eexists. split; [|split; [|split]]; cycle 3.
  - unfold getCurrentState. cbv zeta. reflexivity.
  - cbn [list_to_map foldr uncurry]. cbn [fst snd]. obj_read. reflexivity.
  - cbn [list_to_map foldr uncurry]. cbn [fst snd]. obj_read. reflexivity.
  - cbn [list_to_map foldr uncurry]. cbn [fst snd]. obj_read. reflexivity.
Qed.

Lemma getCurrentState_isPlaying (p : Page) :
  get "isPlaying" (getCurrentState p) = isPlaying p.
Proof.
  destruct (getCurrentState_shape p) as (o & _ & _ & Hp & ->).
  cbv zeta.
  repeat match goal with
         | |- context [ if ?b then _ else _ ] => destruct b
         end; obj_read; exact Hp.
Qed.

(** With the time getters at hand, the current time is what the direct
    getter answers when that is truthy. *)
Lemma getCurrentState_currentTime_direct (p : Page) :
  truthy (of_timeval (getCurrentTime p)) = true ->
  get "currentTime" (getCurrentState p) = of_timeval (getCurrentTime p).
Proof.
  intros Ht.
  destruct (getCurrentState_shape p) as (o & _ & Hc & _ & ->).
  cbv zeta. rewrite Hc, Ht. cbn [negb].
  obj_read. rewrite ?Hc, ?Ht. cbn [negb andb]. reflexivity.
Qed.

(** The remaining time is put to use only together with what the direct
    duration getter answers in the same evaluation. *)
Lemma getCurrentState_currentTime_remaining (p : Page) (d r : Z) :
  truthy (of_timeval (getCurrentTime p)) = false ->
  getDuration p = TNumber (Fin d) -> d <> 0 ->
  getRemainingTime p = TNumber (Fin r) -> r <> 0 ->
  d - Z.abs r <> 0 ->
  get "currentTime" (getCurrentState p) = Number (Fin (d - Z.abs r)).
Proof.
  intros Ht Hd Hd0 Hr Hr0 Hne.
  destruct (getCurrentState_shape p) as (o & Ho & Hc & _ & ->).
  cbv zeta. rewrite Hc, Ht, Ho, Hd, Hr. cbn [negb of_timeval truthy].
  assert (Ed : (d =? 0) = false) by (apply Z.eqb_neq; exact Hd0).
  assert (Er : (r =? 0) = false) by (apply Z.eqb_neq; exact Hr0).
  assert (En : (d - Z.abs r =? 0) = false) by (apply Z.eqb_neq; exact Hne).
  rewrite Ed, Er. cbn [negb andb].
  obj_read. rewrite ?Ho, ?Hd.
  cbn [of_timeval truthy js_minus Math_abs to_number negb andb].
  rewrite ?Ed. cbn [negb andb]. rewrite ?En. cbn [negb andb].
  obj_read. reflexivity.
Qed.

Lemma getCurrentState_currentTime_no_duration (p : Page) :
  truthy (of_timeval (getCurrentTime p)) = false ->
  truthy (of_timeval (getDuration p)) = false ->
  get "currentTime" (getCurrentState p) =
  if truthy (get "currentTime" (getTimeInfo p))
  then get "currentTime" (getTimeInfo p)
  else of_timeval (getCurrentTime p).
Proof.
  intros Ht Hd.
  destruct (getCurrentState_shape p) as (o & Ho & Hc & _ & ->).
  cbv zeta. rewrite Hc, Ht, Ho, Hd. cbn [negb].
  rewrite Bool.andb_false_r.
  obj_read. rewrite ?Hc, ?Ht. cbn [negb andb].
  destruct (truthy (get "currentTime" (getTimeInfo p))); reflexivity.
Qed.

(** ** The loop of [stateChangedWorker] *)

Lemma default_not_NaN (key : string) : get key defaultState <> Number NaN.
Proof.
  unfold get, defaultState, defaultEntries. cbn [list_to_map foldr uncurry].
  cbn [fst snd].
  repeat (rewrite lookup_insert; case_decide; [discriminate|]).
  rewrite lookup_empty. discriminate.
Qed.

Lemma newValueOf_not_NaN (newState : obj) (key : string) :
  newValueOf newState key <> Number NaN.
Proof.
  unfold newValueOf.
  destruct (truthy (get key newState) || strict_eq (get key newState) (Boolean false))
    eqn:E.
  - intros H. rewrite H in E. discriminate.
  - apply default_not_NaN.
Qed.

Lemma diffStep_get_self (newState : obj) (acc : obj * list string)
    (key : string) :
  get key (diffStep newState acc key).1 = newValueOf newState key.
Proof.
  unfold diffStep. cbv zeta.
  destruct (strict_eq (newValueOf newState key) (get key acc.1)) eqn:E;
    cbn [negb fst].
  - symmetry. by apply strict_eq_true.
  - apply get_set_eq.
Qed.

Lemma diffStep_get_other (newState : obj) (acc : obj * list string)
    (key k : string) :
  key <> k -> get key (diffStep newState acc k).1 = get key acc.1.
Proof.
  intros H. unfold diffStep. cbv zeta.
  destruct (negb _); cbn [fst]; [by apply get_set_ne | reflexivity].
Qed.

Lemma diffFold_get_out (newState : obj) (ks : list string) :
  forall (acc : obj * list string) (key : string),
    key ∉ ks ->
    get key (foldl (diffStep newState) acc ks).1 = get key acc.1.
Proof.
  induction ks as [|k ks IH]; intros acc key Hout; [reflexivity|].
  apply not_elem_of_cons in Hout as [Hne Hout]. cbn [foldl].
  rewrite IH by exact Hout. by apply diffStep_get_other.
Qed.

Lemma diffFold_get_in (newState : obj) (ks : list string) :
  forall (acc : obj * list string) (key : string),
    key ∈ ks ->
    get key (foldl (diffStep newState) acc ks).1 = newValueOf newState key.
Proof.
  induction ks as [|k ks IH]; intros acc key Hin.
  - by apply elem_of_nil in Hin.
  - cbn [foldl]. destruct (decide (key ∈ ks)) as [Hks|Hks].
    + by apply IH.
    + apply elem_of_cons in Hin as [->|Hin]; [|contradiction].
      rewrite diffFold_get_out by exact Hks. apply diffStep_get_self.
Qed.

Lemma diffFold_changed (newState : obj) (ks : list string) :
  NoDup ks ->
  forall (acc : obj * list string) (key : string),
    key ∈ (foldl (diffStep newState) acc ks).2 <->
    key ∈ acc.2 \/
    (key ∈ ks /\ strict_eq (newValueOf newState key) (get key acc.1) = false).
Proof.
  induction 1 as [|k ks Hk Hnd IH]; intros acc key.
  - cbn [foldl]. split; [by left|]. intros [H|[H _]]; [exact H|].
    by apply elem_of_nil in H.
  - cbn [foldl]. rewrite IH. split.
    + intros [H|[Hin Hs]].
      * unfold diffStep in H. cbv zeta in H.
        destruct (strict_eq (newValueOf newState k) (get k acc.1)) eqn:E;
          cbn [negb snd] in H; [by left|].
        apply elem_of_app in H as [H|H]; [by left|].
        apply list_elem_of_singleton in H as ->.
        right. split; [by left | exact E].
      * right. split; [by right|].
        rewrite diffStep_get_other in Hs; [exact Hs|].
        intros ->. contradiction.
    + intros [H|[Hin Hs]].
      * left. unfold diffStep. cbv zeta.
        destruct (negb _); cbn [snd]; [|exact H].
        apply elem_of_app. by left.
      * apply elem_of_cons in Hin as [->|Hin].
        -- left. unfold diffStep. cbv zeta. rewrite Hs. cbn [negb snd].
           apply elem_of_app. right. by apply list_elem_of_singleton.
        -- right. split; [exact Hin|].
           rewrite diffStep_get_other; [exact Hs|].
           intros ->. contradiction.
Qed.

Lemma diffFold_settled (newState : obj) (ks : list string) :
  forall acc : obj * list string,
    (forall key, key ∈ ks ->
       strict_eq (newValueOf newState key) (get key acc.1) = true) ->
    foldl (diffStep newState) acc ks = acc.
Proof.
  induction ks as [|k ks IH]; intros acc H; [reflexivity|].
  cbn [foldl].
  assert (E : diffStep newState acc k = acc).
  { unfold diffStep. cbv zeta. rewrite H by (by left). reflexivity. }
  rewrite E. apply IH. intros key Hin. apply H. by right.
Qed.

Lemma stateKeys_NoDup : NoDup stateKeys.
Proof. apply (bool_decide_unpack (NoDup stateKeys)). vm_compute. reflexivity. Qed.

Lemma diff_get (newState cur : obj) (key : string) :
  key ∈ stateKeys -> get key (diff newState cur).1 = newValueOf newState key.
Proof. apply diffFold_get_in. Qed.

Lemma diff_changed (newState cur : obj) (key : string) :
  key ∈ (diff newState cur).2 <->
  key ∈ stateKeys /\ strict_eq (newValueOf newState key) (get key cur) = false.
Proof.
  unfold diff. rewrite diffFold_changed by apply stateKeys_NoDup.
  cbn [fst snd]. split; [|by right].
  intros [H|H]; [by apply elem_of_nil in H | exact H].
Qed.

Lemma diff_settled (newState cur : obj) :
  diff newState (diff newState cur).1 = ((diff newState cur).1, []).
Proof.
  unfold diff at 1. apply diffFold_settled. intros key Hin. cbn [fst].
  rewrite diff_get by exact Hin. apply strict_eq_refl, newValueOf_not_NaN.
Qed.

Lemma changeSet_spec (p : Page) (c : Connector) (key : string) :
  key ∈ changeSet p c <->
  key ∈ stateKeys /\
  strict_eq (newValueOf (getCurrentState p) key) (get key (currentState c))
  = false.
Proof. apply diff_changed. Qed.

(** ** [filterState] writes the filtered snapshot only *)

Lemma filterState_frame (p : Page) (fields : list string) :
  forall c : Connector,
    currentState (filterState p fields c) = currentState c /\
    isStateReset (filterState p fields c) = isStateReset c /\
    reactorCallback (filterState p fields c) = reactorCallback c /\
    timer (filterState p fields c) = timer c /\
    calls (filterState p fields c) = calls c /\
    workerRuns (filterState p fields c) = workerRuns c /\
    deferred (filterState p fields c) = deferred c /\
    fired (filterState p fields c) = fired c.
Proof.
  unfold filterState.
  induction fields as [|field fields IH]; intros c; cbn [foldl].
  - repeat split.
  - specialize (IH (with_filteredState
        (set field (filteredValue p field (get field (currentState c)))
           (filteredState c)) c)).
    exact IH.
Qed.

Lemma filterState_get_out (p : Page) (fields : list string) :
  forall (c : Connector) (key : string),
    key ∉ fields ->
    get key (filteredState (filterState p fields c)) = get key (filteredState c).
Proof.
  unfold filterState.
  induction fields as [|field fields IH]; intros c key Hout; cbn [foldl].
  - reflexivity.
  - apply not_elem_of_cons in Hout as [Hne Hout].
    rewrite IH by exact Hout. cbn [filteredState with_filteredState].
    by apply get_set_ne.
Qed.

Lemma filterState_get_in (p : Page) (fields : list string) :
  forall (c : Connector) (key : string),
    key ∈ fields ->
    get key (filteredState (filterState p fields c)) =
    filteredValue p key (get key (currentState c)).
Proof.
  induction fields as [|field fields IH]; intros c key Hin.
  - by apply elem_of_nil in Hin.
  - change (filterState p (field :: fields) c)
      with (filterState p fields
              (with_filteredState
                 (set field (filteredValue p field (get field (currentState c)))
                    (filteredState c)) c)).
    destruct (decide (key ∈ fields)) as [Hf|Hf].
    + rewrite IH by exact Hf. reflexivity.
    + apply elem_of_cons in Hin as [->|Hin]; [|contradiction].
      rewrite filterState_get_out by exact Hf.
      cbn [filteredState with_filteredState]. apply get_set_eq.
Qed.

(** ** What one evaluation does *)

Lemma worker_frame (p : Page) (c : Connector) :
  isStateReset (stateChangedWorker p c) = isStateReset c /\
  reactorCallback (stateChangedWorker p c) = reactorCallback c /\
  timer (stateChangedWorker p c) = timer c /\
  workerRuns (stateChangedWorker p c) = S (workerRuns c) /\
  deferred (stateChangedWorker p c) = deferred c /\
  fired (stateChangedWorker p c) = fired c.
Proof.
  unfold stateChangedWorker. cbv zeta.
  destruct (diff (getCurrentState p) (currentState c)) as [cur changed].
  cbn [fst snd].
  destruct (0 <? length changed)%nat; [|repeat split].
  set (c0 := with_currentState cur (noteRun c)).
  destruct (filterState_frame p changed c0)
    as (_ & H1 & H2 & H3 & _ & H5 & H6 & H7).
  unfold callReactor. rewrite H2.
  change (reactorCallback c0) with (reactorCallback c).
  destruct (reactorCallback c) eqn:E;
    cbn [isStateReset reactorCallback timer workerRuns deferred fired];
    rewrite ?H1, ?H2, ?H3, ?H5, ?H6, ?H7; repeat split; exact E.
Qed.

Lemma worker_currentState (p : Page) (c : Connector) :
  currentState (stateChangedWorker p c) =
  (diff (getCurrentState p) (currentState c)).1.
Proof.
  unfold stateChangedWorker. cbv zeta.
  destruct (diff (getCurrentState p) (currentState c)) as [cur changed].
  cbn [fst snd].
  destruct (0 <? length changed)%nat; [|reflexivity].
  set (c0 := with_currentState cur (noteRun c)).
  destruct (filterState_frame p changed c0) as (H0 & _).
  unfold callReactor.
  destruct (reactorCallback (filterState p changed c0));
    cbn [currentState]; rewrite H0; reflexivity.
Qed.

Lemma worker_get (p : Page) (c : Connector) (key : string) :
  key ∈ stateKeys ->
  get key (currentState (stateChangedWorker p c)) =
  newValueOf (getCurrentState p) key.
Proof. intros H. rewrite worker_currentState. by apply diff_get. Qed.

(** An empty ChangeSet: nothing is filtered and nobody is called. *)
Lemma worker_quiet (p : Page) (c : Connector) :
  changeSet p c = [] ->
  filteredState (stateChangedWorker p c) = filteredState c /\
  calls (stateChangedWorker p c) = calls c.
Proof.
  unfold stateChangedWorker. intros E. cbv zeta. rewrite E.
  split; reflexivity.
Qed.

Lemma callReactor_frame (payload : obj) (changedFields : list string)
    (c : Connector) :
  currentState (callReactor payload changedFields c) = currentState c /\
  filteredState (callReactor payload changedFields c) = filteredState c /\
  calls (callReactor payload changedFields c) =
    if reactorCallback c then calls c ++ [(payload, changedFields)]
    else calls c.
Proof.
  unfold callReactor. destruct (reactorCallback c); repeat split; reflexivity.
Qed.

Lemma worker_loud_eq (p : Page) (c : Connector) (f : string)
    (changed : list string) :
  changeSet p c = f :: changed ->
  stateChangedWorker p c =
  let c0 := filterState p (f :: changed)
              (with_currentState (diff (getCurrentState p) (currentState c)).1
                 (noteRun c)) in
  callReactor (filteredState c0) (f :: changed) c0.
Proof.
  unfold stateChangedWorker. intros E. cbv zeta. rewrite E.
  reflexivity.
Qed.

(** A ChangeSet that is not empty: the changed fields are filtered, and
    the reactor, if there is one, is called once with the filtered
    snapshot and the ChangeSet. *)
Lemma worker_loud (p : Page) (c : Connector) :
  changeSet p c <> [] ->
  (forall key, key ∈ changeSet p c ->
     get key (filteredState (stateChangedWorker p c)) =
     filteredValue p key (get key (currentState (stateChangedWorker p c)))) /\
  (forall key, key ∉ changeSet p c ->
     get key (filteredState (stateChangedWorker p c)) =
     get key (filteredState c)) /\
  calls (stateChangedWorker p c) =
    if reactorCallback c
    then calls c ++ [(filteredState (stateChangedWorker p c), changeSet p c)]
    else calls c.
Proof.
  intros Hne.
  destruct (changeSet p c) as [|f changed] eqn:E; [contradiction|].
  rewrite (worker_loud_eq p c f changed E). cbv zeta.
  remember (with_currentState (diff (getCurrentState p) (currentState c)).1
              (noteRun c)) as c0 eqn:Ec0.
  destruct (callReactor_frame
              (filteredState (filterState p (f :: changed) c0)) (f :: changed)
              (filterState p (f :: changed) c0)) as (Hc & Hf & Hl).
  destruct (filterState_frame p (f :: changed) c0)
    as (H0 & _ & H2 & _ & H4 & _).
  rewrite Hc, Hf, Hl, H0, H2, H4.
  assert (Hr : reactorCallback c0 = reactorCallback c) by (subst c0; reflexivity).
  assert (Hcalls : calls c0 = calls c) by (subst c0; reflexivity).
  assert (Hfs : filteredState c0 = filteredState c) by (subst c0; reflexivity).
  rewrite Hr, Hcalls. split; [|split].
  - intros key Hin. apply filterState_get_in. exact Hin.
  - intros key Hout. rewrite <- Hfs. apply filterState_get_out. exact Hout.
  - reflexivity.
Qed.

(** ** The reset *)

Lemma resetState_frame (c : Connector) :
  currentState (resetState c) = currentState c /\
  filteredState (resetState c) = filteredState c /\
  reactorCallback (resetState c) = reactorCallback c /\
  timer (resetState c) = timer c /\
  workerRuns (resetState c) = workerRuns c /\
  deferred (resetState c) = deferred c /\
  fired (resetState c) = fired c /\
  isStateReset (resetState c) = true.
Proof.
  unfold resetState, callReactor.
  destruct (isStateReset c) eqn:E; [repeat split; exact E|].
  destruct (reactorCallback c) eqn:R; repeat split; exact R.
Qed.

Lemma resetState_calls (c : Connector) :
  calls (resetState c) =
  if negb (isStateReset c) && reactorCallback c
  then calls c ++ [(∅, stateKeys)]
  else calls c.
Proof.
  unfold resetState, callReactor.
  destruct (isStateReset c), (reactorCallback c); reflexivity.
Qed.

Lemma resetState_suppressed (c : Connector) :
  isStateReset c = true -> resetState c = c.
Proof. unfold resetState. intros ->. reflexivity. Qed.

(** C1, as stated, fails: after a song has been recognised, a reset, be it
    called directly or through the scrobbling gate, leaves the title in
    both snapshots, so neither is the all-default state. *)
Lemma resetState_defaults_counterexample :
  let c := stateChangedWorker songPage (freshConnector true) in
  get "track" (currentState (resetState c)) = Str "Song" /\
  get "track" (filteredState (resetState c)) = Str "Song" /\
  get "track" (currentState (onStateChanged 0 advertPage c)) = Str "Song" /\
  ~ (currentState (resetState c) = defaultState /\
     filteredState (resetState c) = defaultState).
Proof.
  cbv zeta. conjuncts; try (vm_compute; reflexivity).
  intros [H _].
  assert (E : get "track" (currentState
                (resetState (stateChangedWorker songPage (freshConnector true))))
              = get "track" defaultState) by (rewrite H; reflexivity).
  vm_compute in E. discriminate E.
Qed.

(** C1, amended: [resetState] writes neither snapshot.  Whatever the raw
    and the filtered snapshot hold before the call, also one made through
    the scrobbling gate, they hold after it; on a connector that has seen
    no song yet that is the all-default state.  A reset that is not
    suppressed hands the reactor an empty object with the names of all
    eight fields. *)
Theorem resetState_leaves_snapshots (c : Connector) :
  (currentState (resetState c) = currentState c /\
   filteredState (resetState c) = filteredState c) /\
  (forall (now : Z) (p : Page),
     truthy (isScrobblingAllowed p) = false ->
     currentState (onStateChanged now p c) = currentState c /\
     filteredState (onStateChanged now p c) = filteredState c) /\
  (currentState c = defaultState -> filteredState c = defaultState ->
   currentState (resetState c) = defaultState /\
   filteredState (resetState c) = defaultState) /\
  (isStateReset c = false -> reactorCallback c = true ->
   calls (resetState c) = calls c ++ [(∅, stateKeys)]).
Proof.
  destruct (resetState_frame c) as (Hc & Hf & _).
  split; [split; assumption|]. split; [|split].
  - intros now p Hgate. unfold onStateChanged. rewrite Hgate. cbn [negb].
    split; assumption.
  - intros Ec Ef. rewrite Hc, Hf. split; assumption.
  - intros Hr Hcb. rewrite resetState_calls, Hr, Hcb. reflexivity.
Qed.

Lemma resetState_leaves_snapshots_witness :
  let c := stateChangedWorker songPage (freshConnector true) in
  get "track" (currentState (onStateChanged 0 advertPage c)) =
    get "track" (currentState c) /\
  currentState (resetState (freshConnector true)) = defaultState /\
  calls (resetState c) = calls c ++ [(∅, stateKeys)].
Proof.
  cbv zeta.
  pose proof (resetState_leaves_snapshots
                (stateChangedWorker songPage (freshConnector true)))
    as (_ & Hgate & _ & Hcall).
  pose proof (resetState_leaves_snapshots (freshConnector true))
    as (_ & _ & Hfresh & _).
  split; [|split].
  - destruct (Hgate 0 advertPage) as [-> _]; reflexivity.
  - apply Hfresh; reflexivity.
  - apply Hcall; vm_compute; reflexivity.
Defined.

(** ** Time fallbacks *)

Ltac in_keys :=
  unfold stateKeys, defaultEntries; cbn [fmap list_fmap fst];
  repeat first [ apply list_elem_of_here | apply list_elem_of_further ].

Lemma newValueOf_truthy (newState : obj) (key : string) :
  truthy (get key newState) = true ->
  newValueOf newState key = get key newState.
Proof. unfold newValueOf. intros ->. reflexivity. Qed.

(** C3, as stated, fails: the raw snapshot holds a duration of 200 from
    the evaluation before, both direct getters answer nothing and the
    remaining time is 30; the current time is resolved to nothing, not to
    170. *)
Lemma currentTime_prior_duration_counterexample :
  let c := stateChangedWorker songPage (freshConnector true) in
  get "duration" (currentState c) = Number (Fin 200) /\
  getDuration remainingOnlyPage = TNull /\
  getCurrentTime remainingOnlyPage = TNull /\
  getRemainingTime remainingOnlyPage = TNumber (Fin 30) /\
  get "currentTime" (getCurrentState remainingOnlyPage) = Null /\
  get "currentTime" (currentState (stateChangedWorker remainingOnlyPage c))
    <> Number (Fin 170).
Proof.
  cbv zeta. conjuncts; try (vm_compute; reflexivity).
  vm_compute. discriminate.
Qed.

(** C3, amended: the remaining time is combined with the duration the
    direct getter answers in the same evaluation; the raw snapshot of the
    evaluation before is not consulted.  With no current time from the
    direct getter and a remaining time of 30, a direct duration of 200
    resolves the current time to 170, in the object [getCurrentState]
    builds and in the raw snapshot after the evaluation; with no direct
    duration the remaining time goes unused and the current time is the
    one of the combined time information, if that has one. *)
Theorem currentTime_from_remainingTime (p : Page) (c : Connector) :
  truthy (of_timeval (getCurrentTime p)) = false ->
  getRemainingTime p = TNumber (Fin 30) ->
  (getDuration p = TNumber (Fin 200) ->
   get "currentTime" (getCurrentState p) = Number (Fin 170) /\
   get "currentTime" (currentState (stateChangedWorker p c)) =
     Number (Fin 170)) /\
  (truthy (of_timeval (getDuration p)) = false ->
   get "currentTime" (getCurrentState p) =
     if truthy (get "currentTime" (getTimeInfo p))
     then get "currentTime" (getTimeInfo p)
     else of_timeval (getCurrentTime p)).
Proof.
  intros Ht Hr. split.
  - intros Hd.
    assert (E : get "currentTime" (getCurrentState p) = Number (Fin 170)).
    { apply (getCurrentState_currentTime_remaining p 200 30 Ht Hd); [lia | exact Hr | lia | lia]. }
    split; [exact E|].
    rewrite worker_get by in_keys.
    rewrite newValueOf_truthy; rewrite E; reflexivity.
  - intros Hd. by apply getCurrentState_currentTime_no_duration.
Qed.

Lemma currentTime_from_remainingTime_witness :
  get "currentTime"
    (currentState
       (stateChangedWorker remainingPage
          (stateChangedWorker songPage (freshConnector true)))) =
    Number (Fin 170) /\
  get "currentTime" (getCurrentState remainingOnlyPage) = Null.
Proof.
  pose proof (currentTime_from_remainingTime remainingPage
                (stateChangedWorker songPage (freshConnector true))
                eq_refl eq_refl) as (Hwith & _).
  pose proof (currentTime_from_remainingTime remainingOnlyPage
                (freshConnector true) eq_refl eq_refl) as (_ & Hwithout).
  split.
  - apply Hwith. reflexivity.
  - rewrite Hwithout by reflexivity. vm_compute. reflexivity.
Defined.

(** ** The change listener *)

Lemma onStateChanged_reset (now : Z) (p : Page) (c : Connector) :
  truthy (isScrobblingAllowed p) = false ->
  onStateChanged now p c = resetState c.
Proof. unfold onStateChanged. intros ->. reflexivity. Qed.

Lemma onStateChanged_ignored (now : Z) (p : Page) (c : Connector) :
  truthy (isScrobblingAllowed p) = true ->
  truthy (isStateChangeAllowed p) = false ->
  onStateChanged now p c = c.
Proof. unfold onStateChanged. intros -> ->. reflexivity. Qed.

Lemma onStateChanged_edge (now : Z) (p : Page) (c : Connector) :
  truthy (isScrobblingAllowed p) = true ->
  truthy (isStateChangeAllowed p) = true ->
  strict_eq (isPlaying p) (get "isPlaying" (currentState c)) = false ->
  onStateChanged now p c = stateChangedWorker p (with_isStateReset false c).
Proof.
  unfold onStateChanged. intros -> -> E. cbn [negb]. cbv zeta.
  change (currentState (with_isStateReset false c)) with (currentState c).
  rewrite E. reflexivity.
Qed.

Lemma onStateChanged_throttled (now : Z) (p : Page) (c : Connector) :
  truthy (isScrobblingAllowed p) = true ->
  truthy (isStateChangeAllowed p) = true ->
  strict_eq (isPlaying p) (get "isPlaying" (currentState c)) = true ->
  onStateChanged now p c =
  stateChangedWorkerThrottled now (with_isStateReset false c).
Proof.
  unfold onStateChanged. intros -> -> E. cbn [negb]. cbv zeta.
  change (currentState (with_isStateReset false c)) with (currentState c).
  rewrite E. reflexivity.
Qed.

(** C4: the two gates of [onStateChanged], in their order.  With
    scrobbling disallowed the signal ends in [resetState], whatever the
    second gate says: afterwards the reset flag is set, and unless it was
    set before, the reactor, if there is one, has been called once more,
    with the empty object and the names of all eight fields.  Nothing is
    evaluated, now or later: no run of the worker, no call of the
    throttled wrapper, no timer armed.  With scrobbling allowed and the
    state change disallowed the connector is left exactly as it was: no
    evaluation, no reset, the flag and the record of calls included. *)
Theorem onStateChanged_gates (now : Z) (p : Page) (c : Connector) :
  (truthy (isScrobblingAllowed p) = false ->
   onStateChanged now p c = resetState c /\
   workerRuns (onStateChanged now p c) = workerRuns c /\
   deferred (onStateChanged now p c) = deferred c /\
   timer (onStateChanged now p c) = timer c /\
   fired (onStateChanged now p c) = fired c /\
   currentState (onStateChanged now p c) = currentState c /\
   isStateReset (onStateChanged now p c) = true /\
   calls (onStateChanged now p c) =
     (if negb (isStateReset c) && reactorCallback c
      then calls c ++ [(∅, stateKeys)]
      else calls c)) /\
  (truthy (isScrobblingAllowed p) = true ->
   truthy (isStateChangeAllowed p) = false ->
   onStateChanged now p c = c /\
   isStateReset (onStateChanged now p c) = isStateReset c /\
   calls (onStateChanged now p c) = calls c /\
   workerRuns (onStateChanged now p c) = workerRuns c /\
   deferred (onStateChanged now p c) = deferred c).
Proof.
  split.
  - intros H. rewrite (onStateChanged_reset now p c H).
    destruct (resetState_frame c) as (Hc & _ & _ & Ht & Hw & Hd & Hf & Hr).
    pose proof (resetState_calls c) as Hcalls.
    repeat split; assumption.
  - intros Hs Ha. rewrite (onStateChanged_ignored now p c Hs Ha).
    repeat split; reflexivity.
Qed.

Lemma onStateChanged_gates_witness :
  let c := stateChangedWorker songPage (freshConnector true) in
  onStateChanged 7 (fluxPage false) c = resetState c /\
  workerRuns (onStateChanged 7 (fluxPage false) c) = 1%nat /\
  isStateReset c = false /\
  isStateReset (onStateChanged 7 (fluxPage false) c) = true /\
  calls (onStateChanged 7 (fluxPage false) c) = calls c ++ [(∅, stateKeys)] /\
  onStateChanged 7 (fluxPage true) c = c.
Proof.
  cbv zeta.
  pose proof (onStateChanged_gates 7 (fluxPage false)
                (stateChangedWorker songPage (freshConnector true)))
    as (Hreset & _).
  pose proof (onStateChanged_gates 7 (fluxPage true)
                (stateChangedWorker songPage (freshConnector true)))
    as (_ & Hignore).
  destruct (Hreset eq_refl) as (H1 & H2 & _ & _ & _ & _ & H3 & H4).
  split; [exact H1|]. split; [|split; [|split; [|split]]].
  - rewrite H2. vm_compute. reflexivity.
  - vm_compute. reflexivity.
  - exact H3.
  - rewrite H4. vm_compute. reflexivity.
  - apply Hignore; reflexivity.
Defined.

(** ** Play and pause edges *)

(** A call of the throttled wrapper evaluates nothing by itself. *)
Lemma throttled_frame (now : Z) (c : Connector) :
  currentState (stateChangedWorkerThrottled now c) = currentState c /\
  filteredState (stateChangedWorkerThrottled now c) = filteredState c /\
  isStateReset (stateChangedWorkerThrottled now c) = isStateReset c /\
  reactorCallback (stateChangedWorkerThrottled now c) = reactorCallback c /\
  calls (stateChangedWorkerThrottled now c) = calls c /\
  workerRuns (stateChangedWorkerThrottled now c) = workerRuns c /\
  fired (stateChangedWorkerThrottled now c) = fired c /\
  deferred (stateChangedWorkerThrottled now c) = deferred c ++ [now] /\
  timer (stateChangedWorkerThrottled now c) =
    match timer c with
    | None => Some (now + throttleWait)
    | Some due => Some due
    end.
Proof.
  unfold stateChangedWorkerThrottled. cbv zeta.
  change (timer (noteDeferred now c)) with (timer c).
  destruct (timer c) as [due|] eqn:E; repeat split; cbn [timer noteDeferred];
    exact E.
Qed.

Lemma newValueOf_boolean (newState : obj) (key : string) (b : bool) :
  get key newState = Boolean b -> newValueOf newState key = Boolean b.
Proof. unfold newValueOf. intros ->. destruct b; reflexivity. Qed.






(** ** Two evaluations of the same document *)

(** C7: when [stateChangedWorker] runs twice in a row and the getters
    answer the second time what they answered the first time, the second
    run computes the empty ChangeSet, leaves the raw and the filtered
    snapshot as the first run left them and does not call the reactor. *)
Theorem evaluate_twice_is_noop (p p' : Page) (c : Connector) :
  getCurrentState p' = getCurrentState p ->
  let c1 := stateChangedWorker p c in
  changeSet p' c1 = [] /\
  currentState (stateChangedWorker p' c1) = currentState c1 /\
  filteredState (stateChangedWorker p' c1) = filteredState c1 /\
  calls (stateChangedWorker p' c1) = calls c1.
Proof.
  intros Hsame. cbv zeta.
  assert (Hd : diff (getCurrentState p')
                 (currentState (stateChangedWorker p c)) =
               (currentState (stateChangedWorker p c), [])).
  { rewrite Hsame, worker_currentState. apply diff_settled. }
  assert (Hcs : changeSet p' (stateChangedWorker p c) = []).
  { rewrite Hd. reflexivity. }
  split; [exact Hcs|]. split.
  - rewrite (worker_currentState p'), Hd. reflexivity.
  - exact (worker_quiet p' (stateChangedWorker p c) Hcs).
Qed.

Lemma evaluate_twice_is_noop_witness :
  let c1 := stateChangedWorker songPage (freshConnector true) in
  changeSet songPage c1 = [] /\
  length (calls (stateChangedWorker songPage c1)) = 1%nat.
Proof.
  cbv zeta.
  destruct (evaluate_twice_is_noop songPage songPage (freshConnector true)
              eq_refl) as (Hcs & _ & _ & Hcalls).
  split; [exact Hcs|]. rewrite Hcalls. vm_compute. reflexivity.
Defined.

(** ** Filtered text fields *)

Lemma isTextField_cases (field : string) :
  isTextField field = true ->
  field = "artist" \/ field = "track" \/ field = "album".
Proof.
  unfold isTextField. intros H.
  apply Bool.orb_true_iff in H as [H | H];
    [ apply Bool.orb_true_iff in H as [H | H] | ];
    apply String.eqb_eq in H; auto.
Qed.

Lemma isTextField_default (field : string) :
  isTextField field = true -> get field defaultState = Null.
Proof.
  intros H. destruct (isTextField_cases field H) as [-> | [-> | ->]];
    vm_compute; reflexivity.
Qed.

Lemma filteredValue_text (p : Page) (field : string) (raw : value) :
  isTextField field = true ->
  filteredValue p field raw = js_or (filterField p field raw) Null.
Proof.
  intros H. unfold filteredValue. rewrite H, (isTextField_default field H).
  reflexivity.
Qed.

(** C8: for a changed artist, track or album field, [filterState] stores
    [null] in the filtered snapshot when the filter's output is the empty
    string (or anything else falsy), and when the raw value is absent or
    empty and the filter makes nothing out of nothing; whatever the
    filter answers, the value stored is never the empty string. *)
Theorem filterState_text_default (p : Page) (changedFields : list string)
    (c : Connector) (field : string) :
  field ∈ changedFields ->
  isTextField field = true ->
  let raw := get field (currentState c) in
  let stored := get field (filteredState (filterState p changedFields c)) in
  (filterField p field raw = Str EmptyString -> stored = Null) /\
  (truthy (filterField p field raw) = false -> stored = Null) /\
  (truthy raw = false ->
   (forall text, truthy text = false ->
                 truthy (filterField p field text) = false) ->
   stored = Null) /\
  stored <> Str EmptyString /\
  get field defaultState = Null.
Proof.
  intros Hin Htext. cbv zeta.
  rewrite (filterState_get_in p changedFields c field Hin).
  rewrite (filteredValue_text p field _ Htext).
  unfold js_or.
  split; [|split; [|split; [|split]]].
  - intros ->. reflexivity.
  - intros ->. reflexivity.
  - intros Hraw Hfilter. rewrite (Hfilter _ Hraw). reflexivity.
  - destruct (truthy (filterField p field (get field (currentState c)))) eqn:E.
    + intros H. rewrite H in E. discriminate E.
    + discriminate.
  - by apply isTextField_default.
Qed.

Lemma filterState_text_default_witness :
  let c := stateChangedWorker strippedPage (freshConnector true) in
  get "track" (currentState c) = Str "(Official Video)" /\
  get "track" (filteredState (filterState strippedPage ["track"; "artist"] c))
    = Null /\
  get "artist" (filteredState (filterState strippedPage ["track"; "artist"] c))
    = Null.
Proof.
  cbv zeta.
  pose proof (filterState_text_default strippedPage ["track"; "artist"]
                (stateChangedWorker strippedPage (freshConnector true))
                "track") as Ht.
  pose proof (filterState_text_default strippedPage ["track"; "artist"]
                (stateChangedWorker strippedPage (freshConnector true))
                "artist") as Ha.
  cbv zeta in Ht, Ha.
  destruct Ht as (Hempty & _); [in_keys | reflexivity |].
  destruct Ha as (_ & _ & Habsent & _);
    [apply list_elem_of_further, list_elem_of_here | reflexivity |].
  split; [vm_compute; reflexivity|]. split.
  - apply Hempty. vm_compute. reflexivity.
  - apply Habsent; [vm_compute; reflexivity|].
    intros text Htext. cbn [filterField strippedPage]. rewrite Htext.
    exact Htext.
Defined.

(** ** Falsy values *)

Lemma newValueOf_falsy (newState : obj) (key : string) :
  truthy (get key newState) = false ->
  get key newState <> Boolean false ->
  newValueOf newState key = get key defaultState.
Proof.
  unfold newValueOf. intros Ht Hf. rewrite Ht.
  destruct (get key newState) as [ | | [ | ] | [z | ] | s]; try reflexivity.
  contradiction.
Qed.

Lemma default_of_field (key : string) :
  key ∈ stateKeys -> key <> "isPlaying" -> get key defaultState = Null.
Proof.
  intros Hin Hne. unfold stateKeys, defaultEntries in Hin.
  cbn [fmap list_fmap fst] in Hin.
  repeat (apply elem_of_cons in Hin as [-> | Hin];
          [first [ reflexivity | contradiction ] | ]).
  by apply elem_of_nil in Hin.
Qed.

(** C10: in every evaluation [stateChangedWorker] reads an extracted value
    that is falsy, the boolean [false] apart, as the default of its field:
    the default is what the raw snapshot holds afterwards, and it is
    [null] for every field but [isPlaying], so for a 0 as current time or
    duration and for an empty string as track, artist, album, unique ID or
    track art.  A field that held its default before is then not in the
    ChangeSet, and an evaluation in which nothing else happens calls
    nobody.  An [isPlaying] of [false] is kept and counts as a change of a
    flag that was [true]. *)
Theorem falsy_values_read_as_default (p : Page) (c : Connector) :
  (forall key,
     key ∈ stateKeys ->
     truthy (get key (getCurrentState p)) = false ->
     get key (getCurrentState p) <> Boolean false ->
     get key (currentState (stateChangedWorker p c)) = get key defaultState /\
     (get key (currentState c) = get key defaultState ->
      key ∉ changeSet p c)) /\
  (forall key,
     key ∈ stateKeys -> key <> "isPlaying" ->
     truthy (Number (Fin 0)) = false /\ truthy (Str EmptyString) = false /\
     get key defaultState = Null) /\
  (get "isPlaying" (getCurrentState p) = Boolean false ->
   get "isPlaying" (currentState (stateChangedWorker p c)) = Boolean false /\
   (get "isPlaying" (currentState c) = Boolean true ->
    "isPlaying" ∈ changeSet p c)) /\
  ((forall key,
      key ∈ stateKeys ->
      get key (currentState c) = get key defaultState /\
      ((truthy (get key (getCurrentState p)) = false /\
        get key (getCurrentState p) <> Boolean false) \/
       get key (getCurrentState p) = get key defaultState)) ->
   changeSet p c = [] /\
   calls (stateChangedWorker p c) = calls c).
Proof.
  split; [|split; [|split]].
  - intros key Hin Ht Hf. split.
    + rewrite worker_get by exact Hin. by apply newValueOf_falsy.
    + intros Hold Hch. apply changeSet_spec in Hch as [_ Hch].
      rewrite (newValueOf_falsy _ _ Ht Hf), Hold in Hch.
      rewrite strict_eq_refl in Hch by apply default_not_NaN.
      discriminate Hch.
  - intros key Hin Hne. repeat split. by apply default_of_field.
  - intros Hp. split.
    + rewrite worker_get by in_keys. by apply newValueOf_boolean.
    + intros Hold. apply changeSet_spec. split; [in_keys|].
      rewrite (newValueOf_boolean _ _ false Hp), Hold. reflexivity.
  - intros Hall.
    assert (Hcs : changeSet p c = []).
    { apply elem_of_nil_inv. intros key Hch.
      apply changeSet_spec in Hch as [Hin Hch].
      destruct (Hall key Hin) as [Hold [[Ht Hf] | Hsame]].
      - rewrite (newValueOf_falsy _ _ Ht Hf), Hold in Hch.
        rewrite strict_eq_refl in Hch by apply default_not_NaN.
        discriminate Hch.
      - assert (Hnew : newValueOf (getCurrentState p) key
                       = get key defaultState).
        { unfold newValueOf.
          destruct (truthy (get key (getCurrentState p))
                    || strict_eq (get key (getCurrentState p)) (Boolean false));
            [exact Hsame | reflexivity]. }
        rewrite Hnew, Hold in Hch.
        rewrite strict_eq_refl in Hch by apply default_not_NaN.
        discriminate Hch. }
    split; [exact Hcs|]. exact (proj2 (worker_quiet p c Hcs)).
Qed.

Lemma falsy_values_read_as_default_witness :
  get "currentTime"
    (currentState (stateChangedWorker (zeroPage true) (freshConnector true)))
    = Null /\
  ("track" ∉ changeSet (zeroPage true) (freshConnector true)) /\
  get "isPlaying"
    (currentState (stateChangedWorker (zeroPage false) (freshConnector true)))
    = Boolean false /\
  "isPlaying" ∈ changeSet (zeroPage false) (freshConnector true) /\
  calls (stateChangedWorker (zeroPage true) (freshConnector true)) = [].
Proof.
  destruct (falsy_values_read_as_default (zeroPage true) (freshConnector true))
    as (Hfalsy & Hnull & _ & Hquiet).
  destruct (falsy_values_read_as_default (zeroPage false) (freshConnector true))
    as (_ & _ & Hflag & _).
  destruct (Hfalsy "currentTime") as [Hct _];
    [in_keys | vm_compute; reflexivity | vm_compute; intros E; discriminate E |].
  destruct (Hfalsy "track") as [_ Htr];
    [in_keys | vm_compute; reflexivity | vm_compute; intros E; discriminate E |].
  destruct (Hnull "currentTime") as (_ & _ & Hd);
    [in_keys | intros E; discriminate E |].
  destruct Hflag as [Hkept Hchanged]; [vm_compute; reflexivity|].
  destruct Hquiet as [_ Hcalls].
  { intros key Hin. unfold stateKeys, defaultEntries in Hin.
    cbn [fmap list_fmap fst] in Hin.
    repeat (apply elem_of_cons in Hin as [-> | Hin];
            [split; [reflexivity|];
             first [ left; split; [vm_compute; reflexivity
                                  | vm_compute; intros E; discriminate E]
                   | right; vm_compute; reflexivity ] | ]).
    destruct (proj1 (elem_of_nil key) Hin). }
  split; [rewrite Hct; exact Hd|].
  split; [apply Htr; reflexivity|].
  split; [exact Hkept|].
  split; [apply Hchanged; reflexivity|].
  exact Hcalls.
Defined.

(** ** The reset flag along a run *)

Lemma timerFired_frame (p : Page) (c : Connector) :
  isStateReset (timerFired p c) = isStateReset c /\
  reactorCallback (timerFired p c) = reactorCallback c /\
  deferred (timerFired p c) = deferred c /\
  timer (timerFired p c) = None /\
  fired (timerFired p c) =
    match timer c with
    | Some due => fired c ++ [due]
    | None => fired c
    end.
Proof.
  unfold timerFired. destruct (timer c) as [due|] eqn:E.
  - destruct (worker_frame p (noteFired due (with_timer None c)))
      as (H1 & H2 & H3 & _ & H5 & H6).
    rewrite H1, H2, H3, H5, H6. repeat split.
  - repeat split. exact E.
Qed.

Lemma step_reactorCallback (e : event) (c : Connector) :
  reactorCallback (step e c) = reactorCallback c.
Proof.
  destruct e as [now p| p |]; cbn [step].
  - unfold onStateChanged.
    destruct (truthy (isScrobblingAllowed p)); cbn [negb];
      [|apply resetState_frame].
    destruct (truthy (isStateChangeAllowed p)); cbn [negb]; [|reflexivity].
    cbv zeta. destruct (negb _).
    + destruct (worker_frame p (with_isStateReset false c)) as (_ & H & _).
      exact H.
    + destruct (throttled_frame now (with_isStateReset false c))
        as (_ & _ & _ & H & _).
      exact H.
  - apply timerFired_frame.
  - apply resetState_frame.
Qed.

Lemma step_isStateReset (e : event) (c : Connector) :
  isStateReset (step e c) =
  if passes e then false else if resets e then true else isStateReset c.
Proof.
  destruct e as [now p| p |]; cbn [step passes resets].
  - unfold onStateChanged.
    destruct (truthy (isScrobblingAllowed p)); cbn [negb andb];
      [|apply resetState_frame].
    destruct (truthy (isStateChangeAllowed p)); cbn [negb]; [|reflexivity].
    cbv zeta. destruct (negb _).
    + destruct (worker_frame p (with_isStateReset false c)) as (H & _).
      exact H.
    + destruct (throttled_frame now (with_isStateReset false c))
        as (_ & _ & H & _).
      exact H.
  - apply timerFired_frame.
  - apply resetState_frame.
Qed.

Lemma run_reactorCallback (es : list event) :
  forall c : Connector, reactorCallback (run es c) = reactorCallback c.
Proof.
  unfold run. induction es as [|e es IH]; intros c; cbn [foldl].
  - reflexivity.
  - rewrite IH. apply step_reactorCallback.
Qed.

Lemma run_stays_reset (es : list event) :
  Forall (fun e => passes e = false) es ->
  forall c : Connector, isStateReset c = true -> isStateReset (run es c) = true.
Proof.
  unfold run. induction 1 as [|e es He _ IH]; intros c Hc; cbn [foldl].
  - exact Hc.
  - apply IH. rewrite step_isStateReset, He, Hc.
    destruct (resets e); reflexivity.
Qed.

Lemma run_stays_clear (es : list event) :
  Forall (fun e => resets e = false) es ->
  forall c : Connector, isStateReset c = false -> isStateReset (run es c) = false.
Proof.
  unfold run. induction 1 as [|e es He _ IH]; intros c Hc; cbn [foldl].
  - exact Hc.
  - apply IH. rewrite step_isStateReset, He, Hc.
    destruct (passes e); reflexivity.
Qed.

(** C2, as stated, fails: a signal that gets past both gates clears the
    reset flag although no state change follows.  After a reset the blank
    document signals a change; the deferred evaluation, once it has run,
    has computed the empty ChangeSet and called nobody; yet the next reset
    calls the reactor a second time.  The same holds before the deferred
    evaluation has run at all.  And a state change does not clear the
    flag: when an evaluation deferred before a reset runs after it and
    reports a paused song, the reset that follows still calls nobody. *)
Lemma reset_suppression_counterexample :
  let c1 := resetState (freshConnector true) in
  let c2 := run [StateChanged 0 blankPage] c1 in
  let c3 := run [TimerFired blankPage] c2 in
  let d1 := run [StateChanged 0 songPage; StateChanged 100 advertPage]
              (stateChangedWorker songPage (freshConnector true)) in
  let d2 := run [TimerFired pausedPage] d1 in
  (calls c1 = [(∅, stateKeys)] /\
   workerRuns c2 = 0%nat /\
   calls (resetState c2) = [(∅, stateKeys); (∅, stateKeys)] /\
   changeSet blankPage c2 = [] /\
   workerRuns c3 = 1%nat /\
   calls c3 = calls c1 /\
   calls (resetState c3) = [(∅, stateKeys); (∅, stateKeys)]) /\
  (length (calls d1) = 2%nat /\
   changeSet pausedPage d1 = ["isPlaying"] /\
   length (calls d2) = 3%nat /\
   calls (resetState d2) = calls d2).
Proof. cbv zeta. conjuncts; vm_compute; reflexivity. Qed.

(** C2, amended: once a reset has called the reactor, no later
    [resetState] calls it again as long as no change signal has got past
    both gates of [onStateChanged]: every such reset leaves the connector
    as it finds it.  A signal that gets past both gates clears the flag,
    whether or not an evaluation finds a change; after it, and with no
    other reset in between, the next [resetState] calls the reactor
    exactly once, with the empty object and the names of all fields, and
    the one after that calls nobody. *)
Theorem reset_once_per_episode (c : Connector) (quiet after : list event)
    (e : event) :
  Forall (fun e => passes e = false) quiet ->
  let c1 := run quiet (resetState c) in
  resetState c1 = c1 /\
  (passes e = true ->
   Forall (fun e => resets e = false) after ->
   reactorCallback c = true ->
   let c2 := run (e :: after) c1 in
   calls (resetState c2) = calls c2 ++ [(∅, stateKeys)] /\
   resetState (resetState c2) = resetState c2).
Proof.
  intros Hquiet. cbv zeta.
  assert (Hflag : isStateReset (run quiet (resetState c)) = true).
  { apply run_stays_reset; [exact Hquiet | apply resetState_frame]. }
  split; [by apply resetState_suppressed|].
  intros He Hafter Hcb.
  set (c1 := run quiet (resetState c)) in *.
  assert (Hclear : isStateReset (run (e :: after) c1) = false).
  { change (run (e :: after) c1) with (run after (step e c1)).
    apply run_stays_clear; [exact Hafter|].
    rewrite step_isStateReset, He. reflexivity. }
  assert (Hcb2 : reactorCallback (run (e :: after) c1) = true).
  { rewrite run_reactorCallback. subst c1. rewrite run_reactorCallback.
    destruct (resetState_frame c) as (_ & _ & -> & _). exact Hcb. }
  split.
  - rewrite resetState_calls, Hclear, Hcb2. reflexivity.
  - apply resetState_suppressed. apply resetState_frame.
Qed.

Lemma reset_once_per_episode_witness :
  let c1 := run [StateChanged 0 advertPage; ResetState; TimerFired songPage]
              (resetState (stateChangedWorker songPage (freshConnector true))) in
  let c2 := run [StateChanged 10 songPage; TimerFired songPage] c1 in
  length (calls c1) = 2%nat /\
  resetState c1 = c1 /\
  length (calls (resetState c2)) = 3%nat.
Proof.
  cbv zeta.
  destruct (reset_once_per_episode
              (stateChangedWorker songPage (freshConnector true))
              [StateChanged 0 advertPage; ResetState; TimerFired songPage]
              [TimerFired songPage] (StateChanged 10 songPage))
    as (Hsame & Hnext).
  - repeat constructor.
  - cbv zeta in Hnext. destruct Hnext as (Hcalls & _).
    + reflexivity.
    + repeat constructor.
    + vm_compute. reflexivity.
    + split; [vm_compute; reflexivity|]. split; [exact Hsame|].
      rewrite Hcalls. vm_compute. reflexivity.
Defined.

(** ** The throttle against the clock *)

Lemma firings_due (due : Z) (ds : list Z) :
  Forall (fun t => due <= t) ds ->
  firings (Some due) ds = due :: firings None ds.
Proof.
  destruct ds as [|t rest]; [reflexivity|]. intros H.
  apply Forall_cons in H as [Ht _]. cbn [firings].
  apply Z.leb_le in Ht. rewrite Ht. reflexivity.
Qed.

Lemma pending_fires (ds : list Z) : forall due : Z, due ∈ firings (Some due) ds.
Proof.
  induction ds as [|t rest IH]; intros due; cbn [firings].
  - apply list_elem_of_here.
  - destruct (due <=? t); [apply list_elem_of_here | apply IH].
Qed.

Lemma firings_pending_spaced (ds : list Z) :
  StronglySorted Z.le ds ->
  forall due : Z,
    Forall (fun t => due <= t + throttleWait) ds ->
    exists tl, firings (Some due) ds = due :: tl /\ spaced (due :: tl).
Proof.
  induction 1 as [|t rest Hsorted IH Hle]; intros due Hdue.
  - exists []. split; [reflexivity | exact I].
  - apply Forall_cons in Hdue as [Ht Hrest]. cbn [firings].
    destruct (due <=? t) eqn:E.
    + apply Z.leb_le in E.
      destruct (IH (t + throttleWait)) as (tl & Htl & Hsp).
      { eapply Forall_impl; [exact Hle|]. cbn. intros x Hx. lia. }
      exists (t + throttleWait :: tl). rewrite Htl.
      split; [reflexivity|]. cbn [spaced]. split; [lia | exact Hsp].
    + exact (IH due Hrest).
Qed.

Lemma firings_spaced (ds : list Z) :
  StronglySorted Z.le ds -> spaced (firings None ds).
Proof.
  intros Hsorted. destruct ds as [|t rest]; [exact I|].
  apply StronglySorted_inv in Hsorted as [Hrest Hle]. cbn [firings].
  destruct (firings_pending_spaced rest Hrest (t + throttleWait))
    as (tl & -> & Hsp); [|exact Hsp].
  eapply Forall_impl; [exact Hle|]. cbn. intros x Hx. lia.
Qed.

Lemma firings_pending_serve (ds : list Z) :
  StronglySorted Z.le ds ->
  forall due : Z,
    Forall (fun t => due <= t + throttleWait) ds ->
    forall t : Z, t ∈ ds ->
      exists f, f ∈ firings (Some due) ds /\ t <= f /\ f <= t + throttleWait.
Proof.
  induction 1 as [|x rest Hsorted IH Hle]; intros due Hdue t Hin.
  - destruct (proj1 (elem_of_nil t) Hin).
  - apply Forall_cons in Hdue as [Hx Hrest]. cbn [firings].
    assert (Hnext : Forall (fun y => x + throttleWait <= y + throttleWait) rest).
    { eapply Forall_impl; [exact Hle|]. cbn. intros y Hy. lia. }
    apply elem_of_cons in Hin as [-> | Hin].
    + destruct (due <=? x) eqn:E.
      * exists (x + throttleWait). split; [|unfold throttleWait; lia].
        apply list_elem_of_further, pending_fires.
      * apply Z.leb_gt in E. exists due.
        split; [apply pending_fires | lia].
    + destruct (due <=? x).
      * destruct (IH (x + throttleWait) Hnext t Hin) as (f & Hf & Hb).
        exists f. split; [by apply list_elem_of_further | exact Hb].
      * exact (IH due Hrest t Hin).
Qed.

Lemma firings_serve (ds : list Z) :
  StronglySorted Z.le ds ->
  forall t : Z, t ∈ ds ->
    exists f, f ∈ firings None ds /\ t <= f /\ f <= t + throttleWait.
Proof.
  intros Hsorted t Hin. destruct ds as [|x rest].
  - destruct (proj1 (elem_of_nil t) Hin).
  - cbn [firings].
    assert (Hdue : Forall (fun y => x + throttleWait <= y + throttleWait)
                     (x :: rest)).
    { apply StronglySorted_inv in Hsorted as [_ Hle].
      apply Forall_cons. split; [lia|].
      eapply Forall_impl; [exact Hle|]. cbn. intros y Hy. lia. }
    destruct (firings_pending_serve (x :: rest) Hsorted (x + throttleWait)
                Hdue t Hin) as (f & Hf & Hb).
    exists f. split; [|exact Hb].
    cbn [firings] in Hf.
    assert (E : (x + throttleWait <=? x) = false)
      by (apply Z.leb_gt; unfold throttleWait; lia).
    rewrite E in Hf. exact Hf.
Qed.

Lemma firings_pending_length (ds : list Z) :
  forall due : Z, (length (firings (Some due) ds) <= S (length ds))%nat.
Proof.
  induction ds as [|t rest IH]; intros due; cbn [firings length]; [lia|].
  destruct (due <=? t).
  - cbn [length]. specialize (IH (t + throttleWait)). lia.
  - specialize (IH due). lia.
Qed.

Lemma firings_length (ds : list Z) :
  (length (firings None ds) <= length ds)%nat.
Proof.
  destruct ds as [|t rest]; cbn [firings length]; [lia|].
  apply firings_pending_length.
Qed.

Lemma firings_one_window (ds : list Z) (due : Z) :
  Forall (fun t => t < due) ds -> firings (Some due) ds = [due].
Proof.
  induction 1 as [|t rest Ht _ IH]; cbn [firings]; [reflexivity|].
  assert (E : (due <=? t) = false) by (apply Z.leb_gt; exact Ht).
  rewrite E. exact IH.
Qed.

Lemma sorted_sublist (l1 l2 : list Z) :
  l1 `sublist_of` l2 -> StronglySorted Z.le l2 -> StronglySorted Z.le l1.
Proof.
  induction 1 as [|x l1 l2 Hsub IH|x l1 l2 Hsub IH]; intros Hsorted.
  - constructor.
  - apply StronglySorted_inv in Hsorted as [Hrest Hle].
    constructor; [by apply IH|].
    apply Forall_forall. intros y Hy.
    rewrite Forall_forall in Hle. apply Hle.
    by eapply elem_of_sublist.
  - apply StronglySorted_inv in Hsorted as [Hrest _]. by apply IH.
Qed.

Lemma onStateChanged_timeline (now : Z) (p : Page) (c : Connector) :
  fired (onStateChanged now p c) = fired c /\
  ((deferred (onStateChanged now p c) = deferred c /\
    timer (onStateChanged now p c) = timer c) \/
   (deferred (onStateChanged now p c) = deferred c ++ [now] /\
    timer (onStateChanged now p c) =
      match timer c with
      | None => Some (now + throttleWait)
      | Some due => Some due
      end)).
Proof.
  unfold onStateChanged.
  destruct (truthy (isScrobblingAllowed p)); cbn [negb].
  - destruct (truthy (isStateChangeAllowed p)); cbn [negb].
    + cbv zeta. destruct (negb _).
      * destruct (worker_frame p (with_isStateReset false c))
          as (_ & _ & Ht & _ & Hd & Hf).
        split; [exact Hf|]. left. split; [exact Hd | exact Ht].
      * destruct (throttled_frame now (with_isStateReset false c))
          as (_ & _ & _ & _ & _ & _ & Hf & Hd & Ht).
        split; [exact Hf|]. right. split; [exact Hd | exact Ht].
    + split; [reflexivity|]. left. split; reflexivity.
  - destruct (resetState_frame c) as (_ & _ & _ & Ht & _ & Hd & Hf & _).
    split; [exact Hf|]. left. split; [exact Hd | exact Ht].
Qed.

Lemma finish_timeline (document : Z -> Page) (c : Connector) :
  deferred (finish document c) = deferred c /\
  timer (finish document c) = None /\
  fired (finish document c) = fired c ++ firings (timer c) [].
Proof.
  unfold finish. cbn [firings].
  destruct (timer c) as [due|] eqn:E.
  - destruct (timerFired_frame (document due) c) as (_ & _ & Hd & Ht & Hf).
    rewrite E in Hf. repeat split; assumption.
  - repeat split; [exact E | symmetry; apply app_nil_r].
Qed.

(** The timer goes off exactly as [firings] says for the instants at
    which the throttled wrapper was called. *)
Lemma drive_timeline (document : Z -> Page) (signals : list Z) :
  StronglySorted Z.le signals ->
  forall c : Connector,
    exists ds : list Z,
      ds `sublist_of` signals /\
      deferred (drive document signals c) = deferred c ++ ds /\
      fired (finish document (drive document signals c)) =
        fired c ++ firings (timer c) ds.
Proof.
  induction 1 as [|t rest Hsorted IH Hle]; intros c.
  - exists []. cbn [drive]. split; [constructor|].
    split; [symmetry; apply app_nil_r | apply finish_timeline].
  - cbn [drive].
    set (c0 := settle document t c).
    destruct (IH (onStateChanged t (document t) c0))
      as (ds & Hsub & Hdef & Hfired).
    destruct (onStateChanged_timeline t (document t) c0)
      as (Hf1 & [[Hd1 Ht1] | [Hd1 Ht1]]);
      rewrite Hf1 in Hfired; rewrite Hd1 in Hdef; rewrite Ht1 in Hfired.
    + (* the signal does not reach the throttle *)
      exists ds. split; [by apply sublist_cons|].
      assert (Hlate : Forall (fun x => t <= x) ds).
      { apply Forall_forall. intros x Hx. rewrite Forall_forall in Hle.
        apply Hle. by eapply elem_of_sublist. }
      subst c0. unfold settle in *.
      destruct (timer c) as [due|] eqn:E;
        [|rewrite E in Hfired; split; assumption].
      destruct (due <=? t) eqn:Edue; [|rewrite E in Hfired; split; assumption].
      destruct (timerFired_frame (document due) c) as (_ & _ & Hd & Ht & Hf).
      rewrite E in Hf. rewrite Hd in Hdef. rewrite Ht, Hf in Hfired.
      split; [exact Hdef|]. rewrite Hfired, <- app_assoc. f_equal.
      symmetry. apply firings_due. apply Z.leb_le in Edue.
      eapply Forall_impl; [exact Hlate|]. cbn. intros x Hx. lia.
    + (* the signal calls the throttled wrapper *)
      exists (t :: ds). split; [by apply sublist_skip|].
      rewrite <- app_assoc in Hdef. cbn [app] in Hdef.
      subst c0. unfold settle in *.
      destruct (timer c) as [due|] eqn:E.
      * destruct (due <=? t) eqn:Edue.
        -- destruct (timerFired_frame (document due) c)
             as (_ & _ & Hd & Ht & Hf).
           rewrite E in Hf. rewrite Hd in Hdef. rewrite Ht, Hf in Hfired.
           split; [exact Hdef|]. cbn [firings]. rewrite Edue.
           rewrite Hfired, <- app_assoc. reflexivity.
        -- rewrite E in Hfired. split; [exact Hdef|].
           cbn [firings]. rewrite Edue. exact Hfired.
      * rewrite E in Hfired. split; [exact Hdef|]. exact Hfired.
Qed.

(** *** Runs in which the playing flag never toggles *)

Lemma worker_keeps_flag (p : Page) (c : Connector) (b : bool) :
  isPlaying p = Boolean b ->
  get "isPlaying" (currentState (stateChangedWorker p c)) = Boolean b.
Proof.
  intros Hp. rewrite worker_get by in_keys.
  apply newValueOf_boolean. rewrite getCurrentState_isPlaying. exact Hp.
Qed.

Lemma timerFired_calm (p : Page) (c : Connector) (b : bool) :
  isPlaying p = Boolean b ->
  get "isPlaying" (currentState c) = Boolean b ->
  get "isPlaying" (currentState (timerFired p c)) = Boolean b /\
  (workerRuns (timerFired p c) + length (fired c) =
   workerRuns c + length (fired (timerFired p c)))%nat.
Proof.
  intros Hp Hc. unfold timerFired. destruct (timer c) as [due|].
  - split; [by apply worker_keeps_flag|].
    destruct (worker_frame p (noteFired due (with_timer None c)))
      as (_ & _ & _ & Hw & _ & Hf).
    rewrite Hw, Hf. cbn [workerRuns fired noteFired with_timer].
    rewrite length_app. cbn [length]. lia.
  - split; [exact Hc | reflexivity].
Qed.

Lemma settle_calm (document : Z -> Page) (now : Z) (c : Connector) (b : bool) :
  (forall t, isPlaying (document t) = Boolean b) ->
  get "isPlaying" (currentState c) = Boolean b ->
  get "isPlaying" (currentState (settle document now c)) = Boolean b /\
  deferred (settle document now c) = deferred c /\
  (workerRuns (settle document now c) + length (fired c) =
   workerRuns c + length (fired (settle document now c)))%nat.
Proof.
  intros Hp Hc. unfold settle. destruct (timer c) as [due|] eqn:E.
  - destruct (due <=? now).
    + destruct (timerFired_calm (document due) c b (Hp due) Hc) as [H1 H2].
      destruct (timerFired_frame (document due) c) as (_ & _ & Hd & _).
      repeat split; assumption.
    + repeat split. exact Hc.
  - repeat split. exact Hc.
Qed.

Lemma drive_calm (document : Z -> Page) (b : bool) (signals : list Z) :
  (forall t,
     truthy (isScrobblingAllowed (document t)) = true /\
     truthy (isStateChangeAllowed (document t)) = true /\
     isPlaying (document t) = Boolean b) ->
  forall c : Connector,
    get "isPlaying" (currentState c) = Boolean b ->
    get "isPlaying" (currentState (drive document signals c)) = Boolean b /\
    deferred (drive document signals c) = deferred c ++ signals /\
    (workerRuns (drive document signals c) + length (fired c) =
     workerRuns c + length (fired (drive document signals c)))%nat.
Proof.
  intros Hcalm.
  assert (Hp : forall t, isPlaying (document t) = Boolean b)
    by (intros t; apply Hcalm).
  induction signals as [|t rest IH]; intros c Hc; cbn [drive].
  - split; [exact Hc|]. split; [symmetry; apply app_nil_r | reflexivity].
  - destruct (settle_calm document t c b Hp Hc) as (Hc0 & Hd0 & Hw0).
    set (c0 := settle document t c) in *.
    destruct (Hcalm t) as (Hs & Ha & Hpt).
    assert (Hsame : strict_eq (isPlaying (document t))
                      (get "isPlaying" (currentState c0)) = true).
    { rewrite Hpt, Hc0. destruct b; reflexivity. }
    rewrite (onStateChanged_throttled t (document t) c0 Hs Ha Hsame).
    destruct (throttled_frame t (with_isStateReset false c0))
      as (Hcur & _ & _ & _ & _ & Hw & Hf & Hd & _).
    set (c1 := stateChangedWorkerThrottled t (with_isStateReset false c0)) in *.
    destruct (IH c1) as (Hc2 & Hd2 & Hw2).
    { rewrite Hcur. exact Hc0. }
    split; [exact Hc2|]. split.
    + rewrite Hd2, Hd. cbn [deferred with_isStateReset]. rewrite Hd0.
      rewrite <- app_assoc. reflexivity.
    + rewrite Hf, Hw in Hw2. cbn [fired workerRuns with_isStateReset] in Hw2.
      lia.
Qed.

(** C6: the throttle against the clock.  Whatever the document does and
    whenever the signals arrive, the instants [ds] at which the throttled
    wrapper is called and the instants [fs] at which its timer runs the
    deferred evaluation obey: two deferred evaluations lie at least 500 ms
    apart; every call is followed by a deferred evaluation no later than
    500 ms after it; there are no more deferred evaluations than calls
    and in the end none is pending; calls that all fall into the window
    opened by the first of them share the one evaluation at its end.
    While every signal gets past both gates and the playing flag read is
    the one stored, every signal calls the wrapper and the deferred
    evaluations are all the evaluations there are. *)
Theorem throttle_one_evaluation_per_window (document : Z -> Page)
    (signals : list Z) (c : Connector) :
  StronglySorted Z.le signals ->
  timer c = None ->
  let c' := finish document (drive document signals c) in
  exists ds fs : list Z,
    ds `sublist_of` signals /\
    deferred c' = deferred c ++ ds /\
    fired c' = fired c ++ fs /\
    timer c' = None /\
    spaced fs /\
    (forall t, t ∈ ds ->
       exists f, f ∈ fs /\ t <= f /\ f <= t + throttleWait) /\
    (length fs <= length ds)%nat /\
    (forall t0 rest,
       ds = t0 :: rest ->
       Forall (fun t => t < t0 + throttleWait) rest ->
       fs = [t0 + throttleWait]) /\
    (forall b : bool,
       (forall t,
          truthy (isScrobblingAllowed (document t)) = true /\
          truthy (isStateChangeAllowed (document t)) = true /\
          isPlaying (document t) = Boolean b) ->
       get "isPlaying" (currentState c) = Boolean b ->
       ds = signals /\
       workerRuns c' = (workerRuns c + length fs)%nat).
Proof.
  intros Hsorted Hidle. cbv zeta.
  destruct (drive_timeline document signals Hsorted c)
    as (ds & Hsub & Hdef & Hfired).
  destruct (finish_timeline document (drive document signals c))
    as (Hdf & Htf & _).
  rewrite Hidle in Hfired.
  pose proof (sorted_sublist ds signals Hsub Hsorted) as Hds.
  exists ds, (firings None ds).
  split; [exact Hsub|]. split; [rewrite Hdf; exact Hdef|].
  split; [exact Hfired|]. split; [exact Htf|].
  split; [by apply firings_spaced|].
  split; [by apply firings_serve|].
  split; [apply firings_length|]. split.
  - intros t0 rest -> Hwin. cbn [firings]. by apply firings_one_window.
  - intros b Hcalm Hc.
    destruct (drive_calm document b signals Hcalm c Hc) as (Hc1 & Hd1 & Hw1).
    assert (E : ds = signals).
    { rewrite Hdef in Hd1. by apply app_inv_head in Hd1. }
    split; [exact E|].
    set (c1 := drive document signals c) in *.
    assert (Hp : forall t, isPlaying (document t) = Boolean b)
      by (intros t; apply Hcalm).
    assert (Hw2 : (workerRuns (finish document c1) + length (fired c1) =
                   workerRuns c1 + length (fired (finish document c1)))%nat).
    { unfold finish. destruct (timer c1) as [due|]; [|reflexivity].
      apply (timerFired_calm (document due) c1 b (Hp due) Hc1). }
    apply (f_equal (@length Z)) in Hfired. rewrite length_app in Hfired.
    lia.
Qed.

Lemma throttle_one_evaluation_per_window_witness :
  let document := fun _ : Z => songPage in
  let c' := finish document
              (drive document [0; 100; 499; 600; 1200] (freshConnector true)) in
  spaced (fired c') /\
  deferred c' = [0; 100; 499; 600; 1200] /\
  workerRuns c' = length (fired c') /\
  fired c' = [500; 1100; 1700].
Proof.
  cbv zeta.
  destruct (throttle_one_evaluation_per_window (fun _ : Z => songPage)
              [0; 100; 499; 600; 1200] (freshConnector true))
    as (ds & fs & _ & Hd & Hf & _ & Hsp & _ & _ & _ & Hcalm).
  - repeat first [ lia | constructor ].
  - reflexivity.
  - destruct (Hcalm true) as [-> Hw].
    + intros t. repeat split.
    + reflexivity.
    + cbn [fired deferred freshConnector app] in Hd, Hf.
      rewrite Hf. split; [exact Hsp|]. split; [exact Hd|].
      split; [exact Hw|]. rewrite <- Hf. vm_compute. reflexivity.
Defined.

(** ** The song pipeline *)

Section Pipeline.

Import SongPipeline.

Context {Song Error : Type}.

Implicit Types (stages : list (Stage Song Error)) (song : Song).

Lemma process_prefix stages :
  forall song,
    exists rest,
      stages = called (process stages song) ++ rest /\
      track (process stages song) =
        threaded (called (process stages song)) song /\
      (rejection (process stages song) = None -> rest = []).
Proof.
  induction stages as [|stage stages IH]; intros song; cbn [process].
  - exists []. repeat split.
  - destruct (stage song) as [song' [e|]] eqn:E; cbn [called track rejection].
    + exists stages. split; [reflexivity|]. split.
      * unfold threaded. cbn [foldl]. rewrite E. reflexivity.
      * intros H. discriminate H.
    + destruct (IH song') as (rest & Hst & Htr & Hrej).
      exists rest. split; [cbn [app]; f_equal; exact Hst|]. split.
      * unfold threaded in *. cbn [foldl]. rewrite E. exact Htr.
      * exact Hrej.
Qed.

Lemma process_resolved stages song :
  rejection (process stages song) = None ->
  called (process stages song) = stages /\
  track (process stages song) = threaded stages song.
Proof.
  intros H. destruct (process_prefix stages song) as (rest & Hst & Htr & Hr).
  rewrite (Hr H), app_nil_r in Hst.
  split; [symmetry; exact Hst|]. rewrite Htr, <- Hst. reflexivity.
Qed.

Lemma process_rejecting (before after : list (Stage Song Error))
    (failing : Stage Song Error) (e : Error) :
  forall song,
    rejection (process before song) = None ->
    (failing (track (process before song))).2 = Some e ->
    process (before ++ failing :: after) song =
    {| track := (failing (track (process before song))).1;
       called := before ++ [failing];
       rejection := Some e |}.
Proof.
  induction before as [|stage before IH]; intros song Hres Hrej.
  - cbn [process app track] in *.
    destruct (failing song) as [song' r]. cbn [fst snd] in *.
    rewrite Hrej. reflexivity.
  - cbn [process app] in *.
    destruct (stage song) as [song' [e'|]]; cbn [rejection track] in *.
    + discriminate Hres.
    + rewrite (IH song' Hres Hrej). reflexivity.
Qed.

(** C9: [process] calls the stages one after the other in the order of
    the list: the stages called are an initial part of the list, all of
    it unless one rejects, and the track is what they make of it in turn.
    When the stages before one resolve and that one rejects, no stage
    after it is called, [process] answers with that rejection, and the
    track keeps what the earlier stages and the rejecting stage did to
    it. *)
Theorem process_sequential_abort :
  (forall stages song,
     exists rest,
       stages = called (process stages song) ++ rest /\
       track (process stages song) =
         threaded (called (process stages song)) song /\
       (rejection (process stages song) = None -> rest = [])) /\
  (forall (before after : list (Stage Song Error))
          (failing : Stage Song Error) (e : Error) song,
     rejection (process before song) = None ->
     (failing (threaded before song)).2 = Some e ->
     rejection (process (before ++ failing :: after) song) = Some e /\
     called (process (before ++ failing :: after) song) = before ++ [failing] /\
     track (process (before ++ failing :: after) song) =
       (failing (threaded before song)).1).
Proof.
  split; [exact process_prefix|].
  intros before after failing e song Hres Hrej.
  destruct (process_resolved before song Hres) as [_ Htr].
  rewrite <- Htr in Hrej.
  rewrite (process_rejecting before after failing e song Hres Hrej).
  rewrite Htr. repeat split.
Qed.

End Pipeline.

Lemma process_sequential_abort_witness :
  let tag (t : string) : SongPipeline.Stage (list string) string :=
    fun song => (song ++ [t], None) in
  let failing : SongPipeline.Stage (list string) string :=
    fun song => (song ++ ["half"], Some "stage 1 failed") in
  SongPipeline.rejection (SongPipeline.process [failing; tag "two"] []) =
    Some "stage 1 failed" /\
  SongPipeline.track (SongPipeline.process [tag "a"; failing; tag "b"] []) =
    ["a"; "half"] /\
  length (SongPipeline.called
            (SongPipeline.process [tag "a"; failing; tag "b"] [])) = 2%nat.
Proof.
  cbv zeta.
  destruct (@process_sequential_abort (list string) string) as [_ H].
  destruct (H [] [fun song => (song ++ ["two"], None)]
              (fun song => (song ++ ["half"], Some "stage 1 failed"))
              "stage 1 failed" [] eq_refl eq_refl) as (Hr & _).
  destruct (H [fun song => (song ++ ["a"], None)]
              [fun song => (song ++ ["b"], None)]
              (fun song => (song ++ ["half"], Some "stage 1 failed"))
              "stage 1 failed" [] eq_refl eq_refl) as (_ & Hc & Ht).
  split; [exact Hr|]. split; [exact Ht|]. exact (f_equal (@length _) Hc).
Defined.

(** * Further properties of the connector *)

(** ** The ChangeSet *)

Lemma diffFold_changed_sublist (newState : obj) (ks : list string) :
  forall acc : obj * list string,
    exists l,
      (foldl (diffStep newState) acc ks).2 = acc.2 ++ l /\ l `sublist_of` ks.
Proof.
  induction ks as [|k ks IH]; intros acc; cbn [foldl].
  - exists []. split; [symmetry; apply app_nil_r | constructor].
  - destruct (IH (diffStep newState acc k)) as (l & Hl & Hsub).
    rewrite Hl. unfold diffStep. cbv zeta.
    destruct (negb _); cbn [snd].
    + exists (k :: l). split; [by rewrite <- app_assoc|].
      by apply sublist_skip.
    + exists l. split; [reflexivity|]. by apply sublist_cons.
Qed.

Lemma diff_changed_sublist (newState cur : obj) :
  (diff newState cur).2 `sublist_of` stateKeys.
Proof.
  destruct (diffFold_changed_sublist newState stateKeys (cur, []))
    as (l & Hl & Hsub).
  cbn [snd app] in Hl. unfold diff. rewrite Hl. exact Hsub.
Qed.

(** X1: the ChangeSet names fields of the state only, each at most once
    and in the order of the keys of the state. *)
Theorem changeSet_sublist (p : Page) (c : Connector) :
  changeSet p c `sublist_of` stateKeys /\ NoDup (changeSet p c).
Proof.
  pose proof (diff_changed_sublist (getCurrentState p) (currentState c))
    as Hsub.
  split; [exact Hsub|].
  exact (sublist_NoDup _ stateKeys stateKeys_NoDup Hsub).
Qed.

Lemma strict_eq_false (a b : value) :
  a <> Number NaN -> (strict_eq a b = false <-> a <> b).
Proof.
  intros Ha. split.
  - intros E H. subst b. rewrite strict_eq_refl in E by exact Ha.
    discriminate E.
  - intros H. destruct (strict_eq a b) eqn:E; [|reflexivity].
    apply strict_eq_true in E. contradiction.
Qed.

(** X2: the ChangeSet of an evaluation is exactly the set of fields whose
    raw value the evaluation changes. *)
Theorem changeSet_exact (p : Page) (c : Connector) (key : string) :
  key ∈ changeSet p c <->
  key ∈ stateKeys /\
  get key (currentState (stateChangedWorker p c)) <> get key (currentState c).
Proof.
  rewrite changeSet_spec. split.
  - intros [Hin Hs]. split; [exact Hin|].
    rewrite worker_get by exact Hin.
    apply strict_eq_false; [apply newValueOf_not_NaN | exact Hs].
  - intros [Hin Hne]. split; [exact Hin|].
    rewrite worker_get in Hne by exact Hin.
    apply strict_eq_false; [apply newValueOf_not_NaN | exact Hne].
Qed.

(** ** Invariants of the raw snapshot along a run *)

Lemma newValueOf_storable (newState : obj) (key : string) :
  storable key (newValueOf newState key).
Proof.
  unfold storable, newValueOf.
  destruct (truthy (get key newState)) eqn:Et; cbn [orb]; [by left|].
  destruct (strict_eq (get key newState) (Boolean false)) eqn:Ef.
  - right. left. by apply strict_eq_true.
  - right. right. reflexivity.
Qed.

Lemma default_cases (key : string) :
  key ∈ stateKeys ->
  get key defaultState = Null \/ get key defaultState = Boolean true.
Proof.
  intros Hin. unfold stateKeys, defaultEntries in Hin.
  cbn [fmap list_fmap fst] in Hin.
  repeat (apply elem_of_cons in Hin as [-> | Hin];
          [first [ left; reflexivity | right; reflexivity ] | ]).
  destruct (proj1 (elem_of_nil key) Hin).
Qed.

Lemma storable_clean (key : string) (v : value) :
  key ∈ stateKeys ->
  storable key v ->
  v <> Str EmptyString /\ v <> Number (Fin 0) /\ v <> Number NaN /\
  v <> Undefined.
Proof.
  intros Hin [H | [H | H]].
  - conjuncts; intros E; rewrite E in H; discriminate H.
  - conjuncts; intros E; rewrite E in H; discriminate H.
  - destruct (default_cases key Hin) as [Hd | Hd]; rewrite Hd in H;
      conjuncts; intros E; rewrite E in H; discriminate H.
Qed.

(** What one event does to the two snapshots: nothing, or what one
    evaluation does. *)
Lemma step_tracking (e : event) (c : Connector) :
  (currentState (step e c) = currentState c /\
   filteredState (step e c) = filteredState c) \/
  exists (p : Page) (c0 : Connector),
    currentState c0 = currentState c /\
    filteredState c0 = filteredState c /\
    step e c = stateChangedWorker p c0.
Proof.
  destruct e as [now p | p | ]; cbn [step].
  - unfold onStateChanged.
    destruct (truthy (isScrobblingAllowed p)); cbn [negb].
    + destruct (truthy (isStateChangeAllowed p)); cbn [negb].
      * cbv zeta. destruct (negb _).
        -- right. exists p, (with_isStateReset false c).
           split; [reflexivity|]. split; reflexivity.
        -- left.
           destruct (throttled_frame now (with_isStateReset false c))
             as (H1 & H2 & _).
           split; [exact H1 | exact H2].
      * left. split; reflexivity.
    + left. destruct (resetState_frame c) as (H1 & H2 & _).
      split; [exact H1 | exact H2].
  - unfold timerFired. destruct (timer c) as [due|].
    + right. exists p, (noteFired due (with_timer None c)).
      split; [reflexivity|]. split; reflexivity.
    + left. split; reflexivity.
  - left. destruct (resetState_frame c) as (H1 & H2 & _).
    split; [exact H1 | exact H2].
Qed.

Lemma worker_tidy (p : Page) (c : Connector) : tidy (stateChangedWorker p c).
Proof.
  intros key Hin. rewrite worker_get by exact Hin. apply newValueOf_storable.
Qed.

Lemma step_tidy (e : event) (c : Connector) : tidy c -> tidy (step e c).
Proof.
  intros Hc. destruct (step_tracking e c) as [[H _] | (p & c0 & _ & _ & H)].
  - intros key Hin. rewrite H. by apply Hc.
  - rewrite H. apply worker_tidy.
Qed.

Lemma run_tidy (es : list event) :
  forall c : Connector, tidy c -> tidy (run es c).
Proof.
  unfold run. induction es as [|e es IH]; intros c Hc; cbn [foldl].
  - exact Hc.
  - apply IH. by apply step_tidy.
Qed.

Lemma fresh_tidy (withReactor : bool) : tidy (freshConnector withReactor).
Proof. intros key _. right. right. reflexivity. Qed.

(** X3: whatever happens to a connector, its raw snapshot never holds an
    empty string, a zero, [NaN] or [undefined] for a field of the state:
    each value is truthy, the boolean [false], or the default of its
    field. *)
Theorem raw_snapshot_stays_tidy (es : list event) (withReactor : bool)
    (key : string) :
  key ∈ stateKeys ->
  let v := get key (currentState (run es (freshConnector withReactor))) in
  storable key v /\
  v <> Str EmptyString /\ v <> Number (Fin 0) /\ v <> Number NaN /\
  v <> Undefined.
Proof.
  intros Hin. cbv zeta.
  pose proof (run_tidy es (freshConnector withReactor)
                (fresh_tidy withReactor) key Hin) as H.
  split; [exact H|]. exact (storable_clean key _ Hin H).
Qed.

Lemma raw_snapshot_stays_tidy_witness :
  get "currentTime"
    (currentState
       (run [StateChanged 0 (zeroPage false); TimerFired (zeroPage true);
             ResetState; StateChanged 600 pausedPage]
          (freshConnector true))) <> Number (Fin 0).
Proof.
  destruct (raw_snapshot_stays_tidy
              [StateChanged 0 (zeroPage false); TimerFired (zeroPage true);
               ResetState; StateChanged 600 pausedPage] true "currentTime")
    as (_ & _ & H & _).
  - in_keys.
  - exact H.
Defined.

(** ** The properties the snapshots own *)

Lemma diffStep_lookup_other (newState : obj) (acc : obj * list string)
    (key k : string) :
  key <> k -> (diffStep newState acc k).1 !! key = acc.1 !! key.
Proof.
  intros H. unfold diffStep. cbv zeta.
  destruct (negb _); cbn [fst]; [|reflexivity].
  unfold set. by rewrite lookup_insert_ne.
Qed.

Lemma diffStep_lookup_kept (newState : obj) (acc : obj * list string)
    (key k : string) :
  is_Some (acc.1 !! key) -> is_Some ((diffStep newState acc k).1 !! key).
Proof.
  intros H. unfold diffStep. cbv zeta.
  destruct (negb _); cbn [fst]; [|exact H].
  unfold set. rewrite lookup_insert. case_decide; [eexists; reflexivity|exact H].
Qed.

Lemma diffFold_owned (newState : obj) (ks : list string) :
  forall (acc : obj * list string) (key : string),
    (key ∉ ks ->
     (foldl (diffStep newState) acc ks).1 !! key = acc.1 !! key) /\
    (is_Some (acc.1 !! key) ->
     is_Some ((foldl (diffStep newState) acc ks).1 !! key)).
Proof.
  induction ks as [|k ks IH]; intros acc key; cbn [foldl].
  - split; [reflexivity | tauto].
  - destruct (IH (diffStep newState acc k) key) as [Hout Hkept]. split.
    + intros Hnot. apply not_elem_of_cons in Hnot as [Hne Hnot].
      rewrite Hout by exact Hnot. by apply diffStep_lookup_other.
    + intros Hs. apply Hkept. by apply diffStep_lookup_kept.
Qed.

Lemma filterState_lookup (p : Page) (fields : list string) :
  forall (c : Connector) (key : string),
    filteredState (filterState p fields c) !! key =
    if decide (key ∈ fields)
    then Some (filteredValue p key (get key (currentState c)))
    else filteredState c !! key.
Proof.
  induction fields as [|field fields IH]; intros c key.
  - case_decide as H; [|reflexivity]. destruct (proj1 (elem_of_nil key) H).
  - change (filterState p (field :: fields) c)
      with (filterState p fields
              (with_filteredState
                 (set field (filteredValue p field (get field (currentState c)))
                    (filteredState c)) c)).
    rewrite IH. cbn [currentState filteredState with_filteredState].
    destruct (decide (key ∈ fields)) as [Hf | Hf].
    + rewrite decide_True; [reflexivity | by right].
    + destruct (decide (key = field)) as [-> | Hne].
      * rewrite decide_True by (by left).
        unfold set. by rewrite lookup_insert_eq.
      * rewrite decide_False.
        -- unfold set. by rewrite lookup_insert_ne.
        -- intros H. apply elem_of_cons in H as [H | H]; contradiction.
Qed.

Lemma defaultState_shaped : shaped defaultState.
Proof.
  intros key. unfold defaultState.
  rewrite <- elem_of_dom, dom_list_to_map_L, elem_of_list_to_set.
  reflexivity.
Qed.

Lemma worker_shaped (p : Page) (c : Connector) :
  shaped (currentState c) -> shaped (filteredState c) ->
  shaped (currentState (stateChangedWorker p c)) /\
  shaped (filteredState (stateChangedWorker p c)).
Proof.
  intros Hc Hf. split.
  - intros key. rewrite worker_currentState. unfold diff.
    destruct (diffFold_owned (getCurrentState p) stateKeys
                (currentState c, []) key) as [Hout Hkept].
    cbn [fst] in Hout, Hkept. split.
    + intros Hs. destruct (decide (key ∈ stateKeys)) as [Hin | Hnot];
        [exact Hin|].
      rewrite Hout in Hs by exact Hnot. by apply Hc.
    + intros Hin. apply Hkept. by apply Hc.
  - intros key. destruct (changeSet p c) as [|f changed] eqn:E.
    + destruct (worker_quiet p c E) as [-> _]. apply Hf.
    + rewrite (worker_loud_eq p c f changed E). cbv zeta.
      match goal with
      | |- context [ callReactor ?a ?b ?x ] =>
          destruct (callReactor_frame a b x) as (_ & -> & _)
      end.
      rewrite filterState_lookup.
      cbn [filteredState with_currentState noteRun].
      case_decide as Hin; [|apply Hf].
      split; [|intros _; eexists; reflexivity].
      intros _. rewrite <- E in Hin.
      eapply elem_of_sublist; [exact Hin | apply diff_changed_sublist].
Qed.

Lemma step_shaped (e : event) (c : Connector) :
  shaped (currentState c) /\ shaped (filteredState c) ->
  shaped (currentState (step e c)) /\ shaped (filteredState (step e c)).
Proof.
  intros [Hc Hf].
  destruct (step_tracking e c) as [[H1 H2] | (p & c0 & H1 & H2 & H)].
  - rewrite H1, H2. split; assumption.
  - rewrite H. apply worker_shaped; [rewrite H1 | rewrite H2]; assumption.
Qed.

Lemma run_shaped (es : list event) :
  forall c : Connector,
    shaped (currentState c) /\ shaped (filteredState c) ->
    shaped (currentState (run es c)) /\ shaped (filteredState (run es c)).
Proof.
  unfold run. induction es as [|e es IH]; intros c Hc; cbn [foldl].
  - exact Hc.
  - apply IH. by apply step_shaped.
Qed.

(** X4: both snapshots own the eight fields of the state at all times and
    nothing else; the [originUrl] that [getCurrentState] reads never
    becomes a property of either. *)
Theorem snapshots_keep_their_fields (es : list event) (withReactor : bool) :
  let c := run es (freshConnector withReactor) in
  (forall key, is_Some (currentState c !! key) <-> key ∈ stateKeys) /\
  (forall key, is_Some (filteredState c !! key) <-> key ∈ stateKeys) /\
  currentState c !! "originUrl" = None /\
  filteredState c !! "originUrl" = None.
Proof.
  cbv zeta.
  destruct (run_shaped es (freshConnector withReactor)) as [Hc Hf].
  { split; exact defaultState_shaped. }
  assert (Hout : "originUrl" ∉ stateKeys).
  { unfold stateKeys, defaultEntries. cbn [fmap list_fmap fst].
    intros H. repeat (apply elem_of_cons in H as [H | H]; [discriminate H|]).
    destruct (proj1 (elem_of_nil _) H). }
  split; [exact Hc|]. split; [exact Hf|]. split.
  - apply eq_None_not_Some. intros H. apply Hout. by apply Hc.
  - apply eq_None_not_Some. intros H. apply Hout. by apply Hf.
Qed.

(** ** The calls made to the reactor *)

Lemma worker_calls (p : Page) (c : Connector) :
  calls (stateChangedWorker p c) =
  calls c ++
  (if reactorCallback c
   then match changeSet p c with
        | [] => []
        | _ :: _ => [(filteredState (stateChangedWorker p c), changeSet p c)]
        end
   else []).
Proof.
  destruct (changeSet p c) as [|f changed] eqn:E.
  - destruct (worker_quiet p c E) as [_ ->].
    destruct (reactorCallback c); symmetry; apply app_nil_r.
  - assert (Hne : changeSet p c <> []) by (rewrite E; discriminate).
    destruct (worker_loud p c Hne) as (_ & _ & Hcalls).
    rewrite Hcalls, E.
    destruct (reactorCallback c); [reflexivity | symmetry; apply app_nil_r].
Qed.

Lemma step_calls (e : event) (c : Connector) :
  exists new,
    calls (step e c) = calls c ++ new /\
    (length new <= 1)%nat /\
    (reactorCallback c = false -> new = []).
Proof.
  assert (Hw : forall p c0,
             calls c0 = calls c -> reactorCallback c0 = reactorCallback c ->
             exists new,
               calls (stateChangedWorker p c0) = calls c ++ new /\
               (length new <= 1)%nat /\
               (reactorCallback c = false -> new = [])).
  { intros p c0 Hc Hr. rewrite worker_calls, Hc, Hr.
    eexists. split; [reflexivity|].
    destruct (reactorCallback c); [|split; [cbn; lia | reflexivity]].
    destruct (changeSet p c0); cbn [length]; split;
      first [ lia | intros H; discriminate H ]. }
  assert (Hsame : forall c0, calls c0 = calls c ->
             exists new,
               calls c0 = calls c ++ new /\
               (length new <= 1)%nat /\
               (reactorCallback c = false -> new = [])).
  { intros c0 ->. exists []. split; [symmetry; apply app_nil_r|].
    split; [cbn; lia | reflexivity]. }
  assert (Hreset : exists new,
             calls (resetState c) = calls c ++ new /\
             (length new <= 1)%nat /\
             (reactorCallback c = false -> new = [])).
  { rewrite resetState_calls.
    destruct (isStateReset c), (reactorCallback c); cbn [negb andb];
      eexists; (split; [first [ reflexivity | symmetry; apply app_nil_r ]|]);
      cbn [length]; split; first [ lia | intros H; discriminate H | reflexivity ]. }
  destruct e as [now p | p | ]; cbn [step].
  - unfold onStateChanged.
    destruct (truthy (isScrobblingAllowed p)); cbn [negb]; [|exact Hreset].
    destruct (truthy (isStateChangeAllowed p)); cbn [negb];
      [|by apply Hsame].
    cbv zeta. destruct (negb _).
    + apply Hw; reflexivity.
    + apply Hsame.
      destruct (throttled_frame now (with_isStateReset false c))
        as (_ & _ & _ & _ & H & _).
      exact H.
  - unfold timerFired. destruct (timer c) as [due|]; [|by apply Hsame].
    apply Hw; reflexivity.
  - exact Hreset.
Qed.

(** X5: along any run the record of reactor calls only grows at its end,
    by at most one call per event; with no callback registered it does
    not grow at all. *)
Theorem reactor_called_at_most_once_per_event (es : list event) :
  forall c : Connector,
    exists new,
      calls (run es c) = calls c ++ new /\
      (length new <= length es)%nat /\
      (reactorCallback c = false -> new = []).
Proof.
  unfold run. induction es as [|e es IH]; intros c; cbn [foldl].
  - exists []. split; [symmetry; apply app_nil_r|].
    split; [cbn; lia | reflexivity].
  - destruct (step_calls e c) as (n1 & H1 & L1 & R1).
    destruct (IH (step e c)) as (n2 & H2 & L2 & R2).
    exists (n1 ++ n2). rewrite H2, H1, <- app_assoc.
    split; [reflexivity|]. split.
    + rewrite length_app. cbn [length]. lia.
    + intros Hr. rewrite (R1 Hr), R2; [reflexivity|].
      rewrite step_reactorCallback. exact Hr.
Qed.

(** ** The reactor does not steer the connector *)

(** ** A playing flag that is no boolean *)

(** X7: when [isPlaying()] answers with something falsy that is not
    [false] ([undefined], [null], 0, the empty string), every signal that
    gets past the gates counts as an edge: it is evaluated at once, the
    throttled wrapper is not called, and the stored flag is the default
    [true] afterwards. *)
Theorem falsy_flag_is_always_an_edge (now : Z) (p : Page) (c : Connector) :
  tidy c ->
  truthy (isScrobblingAllowed p) = true ->
  truthy (isStateChangeAllowed p) = true ->
  truthy (isPlaying p) = false ->
  isPlaying p <> Boolean false ->
  onStateChanged now p c = stateChangedWorker p (with_isStateReset false c) /\
  deferred (onStateChanged now p c) = deferred c /\
  get "isPlaying" (currentState (onStateChanged now p c)) = Boolean true.
Proof.
  intros Htidy Hs Ha Hfalsy Hnf.
  assert (Hedge : strict_eq (isPlaying p) (get "isPlaying" (currentState c))
                  = false).
  { destruct (strict_eq (isPlaying p) (get "isPlaying" (currentState c)))
      eqn:E; [|reflexivity].
    apply strict_eq_true in E. exfalso.
    destruct (Htidy "isPlaying") as [H | [H | H]].
    - in_keys.
    - rewrite <- E, Hfalsy in H. discriminate H.
    - apply Hnf. rewrite E. exact H.
    - rewrite <- E in H. rewrite H in Hfalsy. discriminate Hfalsy. }
  rewrite (onStateChanged_edge now p c Hs Ha Hedge).
  destruct (worker_frame p (with_isStateReset false c))
    as (_ & _ & _ & _ & Hd & _).
  split; [reflexivity|]. split; [exact Hd|].
  rewrite worker_get by in_keys.
  rewrite newValueOf_falsy; [reflexivity | |];
    rewrite getCurrentState_isPlaying; assumption.
Qed.

Lemma falsy_flag_is_always_an_edge_witness :
  let c := run [StateChanged 0 undecidedPage; StateChanged 1 undecidedPage]
             (freshConnector true) in
  deferred (onStateChanged 2 undecidedPage c) = deferred c /\
  get "isPlaying" (currentState (onStateChanged 2 undecidedPage c))
    = Boolean true.
Proof.
  cbv zeta.
  destruct (falsy_flag_is_always_an_edge 2 undecidedPage
              (run [StateChanged 0 undecidedPage; StateChanged 1 undecidedPage]
                 (freshConnector true))) as (_ & H1 & H2).
  - apply run_tidy, fresh_tidy.
  - reflexivity.
  - reflexivity.
  - reflexivity.
  - intros E. discriminate E.
  - split; [exact H1 | exact H2].
Defined.

(** ** What [getCurrentState] resolves, field by field *)

(** The object after the artist and the track have been settled, and what
    the time fallbacks make of it. *)
Lemma getCurrentState_stages (p : Page) :
  exists o : obj,
    (get "artist" o =
       (if negb (truthy (getArtist p))
           && truthy (get "artist"
                        (default makeEmptyArtistTrack (getArtistTrack p)))
        then get "artist" (default makeEmptyArtistTrack (getArtistTrack p))
        else getArtist p) /\
     get "track" o =
       (if negb (truthy (getTrack p))
           && truthy (get "track"
                        (default makeEmptyArtistTrack (getArtistTrack p)))
        then get "track" (default makeEmptyArtistTrack (getArtistTrack p))
        else getTrack p) /\
     get "album" o = getAlbum p /\
     get "uniqueID" o = getUniqueID p /\
     get "trackArt" o = getTrackArt p /\
     get "originUrl" o = getOriginUrl p /\
     get "duration" o = of_timeval (getDuration p) /\
     get "currentTime" o = of_timeval (getCurrentTime p)) /\
    getCurrentState p =
      let newState :=
        if negb (truthy (get "currentTime" o)) then
          let remainingTime := of_timeval (getRemainingTime p) in
          if truthy remainingTime && truthy (get "duration" o)
          then set "currentTime"
                 (js_minus (get "duration" o) (Math_abs remainingTime)) o
          else o
        else o in
      let timeInfo := getTimeInfo p in
      let newState :=
        if negb (truthy (get "duration" newState))
           && truthy (get "duration" timeInfo)
        then set "duration" (get "duration" timeInfo) newState
        else newState in
      if negb (truthy (get "currentTime" newState))
         && truthy (get "currentTime" timeInfo)
      then set "currentTime" (get "currentTime" timeInfo) newState
      else newState.
Proof.
  eexists. split; cycle 1.
  - unfold getCurrentState. cbv zeta. reflexivity.
  - cbn [list_to_map foldr uncurry]. cbn [fst snd].
    conjuncts; obj_read; reflexivity.
Qed.

Lemma time_fallbacks_frame (p : Page) (o : obj) (key : string) :
  key <> "currentTime" -> key <> "duration" ->
  get key
    (let newState :=
       if negb (truthy (get "currentTime" o)) then
         let remainingTime := of_timeval (getRemainingTime p) in
         if truthy remainingTime && truthy (get "duration" o)
         then set "currentTime"
                (js_minus (get "duration" o) (Math_abs remainingTime)) o
         else o
       else o in
     let timeInfo := getTimeInfo p in
     let newState :=
       if negb (truthy (get "duration" newState))
          && truthy (get "duration" timeInfo)
       then set "duration" (get "duration" timeInfo) newState
       else newState in
     if negb (truthy (get "currentTime" newState))
        && truthy (get "currentTime" timeInfo)
     then set "currentTime" (get "currentTime" timeInfo) newState
     else newState) = get key o.
Proof.
  intros Hc Hd. cbv zeta.
  repeat match goal with
         | |- context [ if ?b then _ else _ ] => destruct b
         end;
    rewrite ?get_set_ne by assumption; reflexivity.
Qed.

(** X8: the artist and the track come from their own getters whenever
    those answer something truthy; only a field whose getter answers
    nothing is taken from the combined artist-track getter, and only if
    that has the part.  The two fields are settled independently, and
    album, unique ID, track art and origin URL always are what their
    getters answer. *)
Theorem artist_and_track_resolution (p : Page) :
  let artistTrack := default makeEmptyArtistTrack (getArtistTrack p) in
  get "artist" (getCurrentState p) =
    (if truthy (getArtist p) then getArtist p
     else if truthy (get "artist" artistTrack) then get "artist" artistTrack
     else getArtist p) /\
  get "track" (getCurrentState p) =
    (if truthy (getTrack p) then getTrack p
     else if truthy (get "track" artistTrack) then get "track" artistTrack
     else getTrack p) /\
  get "album" (getCurrentState p) = getAlbum p /\
  get "uniqueID" (getCurrentState p) = getUniqueID p /\
  get "trackArt" (getCurrentState p) = getTrackArt p /\
  get "originUrl" (getCurrentState p) = getOriginUrl p.
Proof.
  cbv zeta.
  destruct (getCurrentState_stages p)
    as (o & (Ha & Ht & Hal & Hu & Hta & Ho & _) & ->).
  rewrite !time_fallbacks_frame by discriminate.
  rewrite Ha, Ht, Hal, Hu, Hta, Ho.
  conjuncts; try reflexivity.
  - destruct (truthy (getArtist p)); reflexivity.
  - destruct (truthy (getTrack p)); reflexivity.
Qed.

Lemma remaining_stage_get (a b : bool) (x : value) (o : obj) (key : string) :
  get key (if a then if b then set "currentTime" x o else o else o) =
  if bool_decide (key = "currentTime") && (a && b) then x else get key o.
Proof.
  case_bool_decide as Hk.
  - subst key. destruct a, b; cbn [andb]; try reflexivity. apply get_set_eq.
  - destruct a, b; cbn [andb]; try reflexivity. by apply get_set_ne.
Qed.

Lemma getCurrentState_duration (p : Page) :
  get "duration" (getCurrentState p) =
  if negb (truthy (of_timeval (getDuration p)))
     && truthy (get "duration" (getTimeInfo p))
  then get "duration" (getTimeInfo p)
  else of_timeval (getDuration p).
Proof.
  destruct (getCurrentState_stages p) as (o & (_ & _ & _ & _ & _ & _ & Hd & _) & ->).
  cbv zeta.
  rewrite get_if_set_ne by discriminate.
  rewrite get_if_set_eq.
  rewrite !remaining_stage_get.
  rewrite bool_decide_false by discriminate. cbn [andb].
  rewrite Hd. reflexivity.
Qed.

Lemma getCurrentState_currentTime (p : Page) :
  let direct := of_timeval (getCurrentTime p) in
  let derived :=
    if negb (truthy direct)
       && (truthy (of_timeval (getRemainingTime p))
           && truthy (of_timeval (getDuration p)))
    then js_minus (of_timeval (getDuration p))
           (Math_abs (of_timeval (getRemainingTime p)))
    else direct in
  get "currentTime" (getCurrentState p) =
  if negb (truthy derived) && truthy (get "currentTime" (getTimeInfo p))
  then get "currentTime" (getTimeInfo p)
  else derived.
Proof.
  destruct (getCurrentState_stages p)
    as (o & (_ & _ & _ & _ & _ & _ & Hd & Hc) & ->).
  cbv zeta.
  rewrite get_if_set_eq.
  rewrite !get_if_set_ne by discriminate.
  rewrite !remaining_stage_get.
  rewrite bool_decide_true by reflexivity. cbn [andb].
  rewrite Hd, Hc. reflexivity.
Qed.

(** X9: the duration is what its getter answers when that is truthy and
    otherwise the duration of the combined time information, if that has
    one; neither the current time nor the remaining time has a part
    in it. *)
Theorem duration_resolution (p : Page) :
  get "duration" (getCurrentState p) =
  if truthy (of_timeval (getDuration p)) then of_timeval (getDuration p)
  else if truthy (get "duration" (getTimeInfo p))
       then get "duration" (getTimeInfo p)
       else of_timeval (getDuration p).
Proof.
  rewrite getCurrentState_duration.
  destruct (truthy (of_timeval (getDuration p))); reflexivity.
Qed.

(** X10: a current time derived from the remaining time is the duration
    less the magnitude of the remaining time, whatever its sign.  When
    the remaining time is as long as the duration the derived 0 counts as
    absent: the current time of the combined time information takes its
    place if there is one, and otherwise the 0 stays.  This is said of
    whole numbers whose magnitudes add up to no more than 2^53, where
    the subtraction of doubles is exact; beyond that the code rounds, and
    an infinite duration less an infinite remaining time is [NaN]. *)
Theorem currentTime_derived_from_remaining (p : Page) (d r : Z) :
  truthy (of_timeval (getCurrentTime p)) = false ->
  getDuration p = TNumber (Fin d) -> d <> 0 ->
  getRemainingTime p = TNumber (Fin r) -> r <> 0 ->
  Z.abs d + Z.abs r <= 2 ^ 53 ->
  get "currentTime" (getCurrentState p) =
    (if d - Z.abs r =? 0
     then if truthy (get "currentTime" (getTimeInfo p))
          then get "currentTime" (getTimeInfo p)
          else Number (Fin 0)
     else Number (Fin (d - Z.abs r))).
Proof.
  intros Ht Hd Hd0 Hr Hr0 _.
  rewrite getCurrentState_currentTime. cbv zeta.
  rewrite Ht, Hd, Hr. cbn [of_timeval truthy negb andb].
  assert (Ed : (d =? 0) = false) by (apply Z.eqb_neq; exact Hd0).
  assert (Er : (r =? 0) = false) by (apply Z.eqb_neq; exact Hr0).
  rewrite Ed, Er. cbn [negb andb js_minus Math_abs to_number truthy].
  destruct (d - Z.abs r =? 0) eqn:E; cbn [negb andb]; [|reflexivity].
  apply Z.eqb_eq in E. rewrite E. reflexivity.
Qed.

Lemma currentTime_derived_from_remaining_witness :
  get "currentTime" (getCurrentState remainingPage) = Number (Fin 170).
Proof.
  refine (currentTime_derived_from_remaining remainingPage 200 30
            _ _ _ _ _ _).
  - reflexivity.
  - reflexivity.
  - lia.
  - reflexivity.
  - lia.
  - intros E. discriminate E.
Defined.

(** ** What [filterState] stores *)

Lemma filterState_record (p : Page) (fields : list string) :
  forall c : Connector,
    filterState p fields c =
    with_filteredState (filteredState (filterState p fields c)) c.
Proof.
  induction fields as [|field fields IH]; intros c.
  - destruct c; reflexivity.
  - change (filterState p (field :: fields) c)
      with (filterState p fields
              (with_filteredState
                 (set field (filteredValue p field (get field (currentState c)))
                    (filteredState c)) c)).
    rewrite IH at 1. reflexivity.
Qed.


(** X12: what [filterState] stores depends on the set of changed fields
    only, not on their order or on repetitions, and filtering the same
    fields again changes nothing. *)
Theorem filterState_set_of_fields (p : Page) (fields fields' : list string)
    (c : Connector) :
  (forall key, key ∈ fields <-> key ∈ fields') ->
  filterState p fields c = filterState p fields' c /\
  filterState p fields (filterState p fields c) = filterState p fields c.
Proof.
  intros Hsame.
  assert (Hcur : currentState (filterState p fields c) = currentState c)
    by apply filterState_frame.
  split.
  - rewrite (filterState_record p fields c), (filterState_record p fields' c).
    f_equal. apply map_eq. intros key. rewrite !filterState_lookup.
    destruct (decide (key ∈ fields)) as [H | H].
    + rewrite decide_True by (by apply Hsame). reflexivity.
    + rewrite decide_False; [reflexivity|]. intros H'. apply H.
      by apply Hsame.
  - pose proof (filterState_record p fields (filterState p fields c)) as E1.
    pose proof (filterState_record p fields c) as E2.
    assert (E3 : filteredState (filterState p fields (filterState p fields c))
                 = filteredState (filterState p fields c)).
    { apply map_eq. intros key. rewrite filterState_lookup, Hcur.
      destruct (decide (key ∈ fields)) as [H | H]; [|reflexivity].
      rewrite filterState_lookup. rewrite decide_True by exact H.
      reflexivity. }
    rewrite E3 in E1. clear E3 Hcur.
    remember (filterState p fields c) as A eqn:EA. clear EA.
    rewrite E1. rewrite E2. reflexivity.
Qed.


Lemma filterState_set_of_fields_witness :
  let c := stateChangedWorker strippedPage (freshConnector true) in
  filterState strippedPage ["track"; "artist"] c =
  filterState strippedPage ["artist"; "track"; "track"] c.
Proof.
  cbv zeta.
  destruct (filterState_set_of_fields strippedPage ["track"; "artist"]
              ["artist"; "track"; "track"]
              (stateChangedWorker strippedPage (freshConnector true)))
    as [H _]; [|exact H].
  intros key. rewrite !elem_of_cons. tauto.
Defined.

(** X13: an evaluation writes the filtered snapshot for the fields of its
    ChangeSet only: there it stores the filtered raw value, and every
    other field keeps what was reported last, whatever the filter would
    make of it now. *)
Theorem filtered_snapshot_frame (p : Page) (c : Connector) (key : string) :
  filteredState (stateChangedWorker p c) !! key =
  if decide (key ∈ changeSet p c)
  then Some (filteredValue p key (newValueOf (getCurrentState p) key))
  else filteredState c !! key.
Proof.
  destruct (changeSet p c) as [|f changed] eqn:E.
  - destruct (worker_quiet p c E) as [-> _].
    rewrite decide_False; [reflexivity|].
    intros H. destruct (proj1 (elem_of_nil _) H).
  - pose proof (worker_loud_eq p c f changed E) as Heq. cbv zeta in Heq.
    rewrite Heq.
    match goal with
    | |- context [ callReactor ?a ?b ?x ] =>
        destruct (callReactor_frame a b x) as (_ & -> & _)
    end.
    rewrite filterState_lookup.
    cbn [filteredState currentState with_currentState noteRun].
    destruct (decide (key ∈ f :: changed)) as [Hin | Hout]; [|reflexivity].
    rewrite diff_get; [reflexivity|].
    rewrite <- E in Hin.
    eapply elem_of_sublist; [exact Hin | apply diff_changed_sublist].
Qed.

(** ** Injected scripts *)

Section Inject.

Variable inherited : string -> bool.

Lemma injectScript_cases (scriptFile : string) (w : Window) :
  (injectedScripts (injectScript inherited scriptFile w) = injectedScripts w /\
   messageListeners (injectScript inherited scriptFile w) = messageListeners w /\
   default ∅ (webScrobblerScripts (injectScript inherited scriptFile w)) =
     default ∅ (webScrobblerScripts w) /\
   ((default ∅ (webScrobblerScripts w) !! scriptFile = None /\
     inherited scriptFile = true) \/
    exists v, default ∅ (webScrobblerScripts w) !! scriptFile = Some v /\
              truthy v = true)) \/
  (injectedScripts (injectScript inherited scriptFile w) =
     injectedScripts w ++ [scriptFile] /\
   messageListeners (injectScript inherited scriptFile w) =
     S (messageListeners w) /\
   default ∅ (webScrobblerScripts (injectScript inherited scriptFile w)) =
     <[scriptFile := Boolean true]> (default ∅ (webScrobblerScripts w)) /\
   (default ∅ (webScrobblerScripts w) !! scriptFile = None ->
    inherited scriptFile = false) /\
   forall v, default ∅ (webScrobblerScripts w) !! scriptFile = Some v ->
             truthy v = false).
Proof.
  unfold injectScript. cbv zeta.
  destruct (default ∅ (webScrobblerScripts w) !! scriptFile) as [v|] eqn:E.
  - destruct (truthy v) eqn:Ev.
    + left. conjuncts; try reflexivity. right. exists v. by split.
    + right. conjuncts; try reflexivity.
      * intros H. discriminate H.
      * intros v' Hv'. congruence.
  - destruct (inherited scriptFile) eqn:Ei.
    + left. conjuncts; try reflexivity. by left.
    + right. conjuncts; try reflexivity. intros v Hv. discriminate Hv.
Qed.

Lemma injectScript_consistent (scriptFile : string) (w : Window) :
  consistent w -> consistent (injectScript inherited scriptFile w).
Proof.
  intros (Hnd & Hlen & Hreg).
  destruct (injectScript_cases scriptFile w)
    as [(Hi & Hl & Hs & _) | (Hi & Hl & Hs & Hnone & Hfalsy)].
  - unfold consistent. rewrite Hi, Hl, Hs. by conjuncts.
  - assert (Hfresh : scriptFile ∉ injectedScripts w).
    { intros Hin. apply Hreg in Hin. specialize (Hfalsy _ Hin).
      discriminate Hfalsy. }
    unfold consistent. rewrite Hi, Hl, Hs. conjuncts.
    + apply NoDup_app. conjuncts; [exact Hnd | | apply NoDup_singleton].
      intros x Hx Hx'. apply list_elem_of_singleton in Hx'. by subst x.
    + rewrite length_app. cbn [length]. lia.
    + intros f. split.
      * intros Hin. apply elem_of_app in Hin as [Hin | Hin].
        -- destruct (decide (scriptFile = f)) as [-> | Hne];
             [contradiction|].
           rewrite lookup_insert_ne by exact Hne. by apply Hreg.
        -- apply list_elem_of_singleton in Hin as ->.
           apply lookup_insert_eq.
      * intros Hsome. apply elem_of_app.
        destruct (decide (scriptFile = f)) as [-> | Hne].
        -- right. by apply list_elem_of_singleton.
        -- left. rewrite lookup_insert_ne in Hsome by exact Hne.
           by apply Hreg.
Qed.

Lemma freshWindow_consistent : consistent freshWindow.
Proof.
  unfold consistent, freshWindow. cbn. conjuncts.
  - constructor.
  - reflexivity.
  - intros f. split.
    + intros H. destruct (proj1 (elem_of_nil _) H).
    + rewrite lookup_empty. intros [v Hv]. discriminate Hv.
Qed.

Lemma injectAll_consistent (scriptFiles : list string) :
  forall w, consistent w -> consistent (injectAll inherited scriptFiles w).
Proof.
  unfold injectAll.
  induction scriptFiles as [|f fs IH]; intros w Hw; cbn [foldl].
  - exact Hw.
  - apply IH. by apply injectScript_consistent.
Qed.

Lemma injectAll_members (scriptFiles : list string) :
  forall w, consistent w ->
    forall f,
      f ∈ injectedScripts (injectAll inherited scriptFiles w) <->
      f ∈ injectedScripts w \/ (f ∈ scriptFiles /\ inherited f = false).
Proof.
  unfold injectAll.
  induction scriptFiles as [|g gs IH]; intros w Hw f; cbn [foldl].
  - split; [by left|]. intros [H | [H _]]; [exact H|].
    destruct (proj1 (elem_of_nil _) H).
  - rewrite (IH _ (injectScript_consistent g w Hw)).
    destruct Hw as (_ & _ & Hreg).
    destruct (injectScript_cases g w)
      as [(Hi & _ & _ & Hwhy) | (Hi & _ & _ & Hnone & Hfalsy)];
      rewrite Hi.
    + split.
      * intros [H | [H Hf]]; [by left|]. right. split; [by right | exact Hf].
      * intros [H | [H Hf]]; [by left|].
        apply elem_of_cons in H as [-> | H]; [|right; by split].
        left. destruct Hwhy as [[_ Hinh] | (v & Hv & _)].
        -- rewrite Hinh in Hf. discriminate Hf.
        -- apply Hreg. by eexists.
    + assert (Hg : inherited g = false).
      { destruct (default ∅ (webScrobblerScripts w) !! g) as [v|] eqn:E;
          [exfalso | by apply Hnone].
        pose proof (proj2 (Hreg g) (mk_is_Some _ _ E)) as Hin.
        pose proof (proj1 (Hreg g) Hin) as Htrue.
        rewrite E in Htrue. injection Htrue as ->.
        specialize (Hfalsy _ eq_refl). discriminate Hfalsy. }
      split.
      * intros [H | [H Hf]].
        -- apply elem_of_app in H as [H | H]; [by left|].
           apply list_elem_of_singleton in H as ->.
           right. split; [by left | exact Hg].
        -- right. split; [by right | exact Hf].
      * intros [H | [H Hf]].
        -- left. apply elem_of_app. by left.
        -- apply elem_of_cons in H as [-> | H]; [|right; by split].
           left. apply elem_of_app. right. by apply list_elem_of_singleton.
Qed.

(** X14: [injectScript] injects a script at most once.  Calling it again
    for the same file changes nothing, and after any calls on a page that
    had no registry the scripts injected are, without repetition, the
    files asked for whose name [Object.prototype] does not answer. *)
Theorem injectScript_once (scriptFiles : list string) :
  (forall scriptFile w,
     injectScript inherited scriptFile (injectScript inherited scriptFile w) =
     injectScript inherited scriptFile w) /\
  NoDup (injectedScripts (injectAll inherited scriptFiles freshWindow)) /\
  (forall f,
     f ∈ injectedScripts (injectAll inherited scriptFiles freshWindow) <->
     f ∈ scriptFiles /\ inherited f = false).
Proof.
  conjuncts.
  - intros f w. unfold injectScript at 2 3. cbv zeta.
    destruct (default ∅ (webScrobblerScripts w) !! f) as [v|] eqn:E.
    + destruct (truthy v) eqn:Ev.
      * unfold injectScript. cbn. rewrite E, Ev. reflexivity.
      * unfold injectScript, set. cbn. rewrite lookup_insert_eq. cbn.
        reflexivity.
    + destruct (inherited f) eqn:Ei.
      * unfold injectScript. cbn. rewrite E, Ei. reflexivity.
      * unfold injectScript, set. cbn. rewrite lookup_insert_eq. cbn.
        reflexivity.
  - apply (injectAll_consistent scriptFiles freshWindow freshWindow_consistent).
  - intros f.
    rewrite (injectAll_members scriptFiles freshWindow freshWindow_consistent).
    cbn [injectedScripts freshWindow]. split.
    + intros [H | H]; [destruct (proj1 (elem_of_nil _) H) | exact H].
    + intros H. by right.
Qed.

(** X15: a message is handed to [onScriptEvent] once for every script
    injected so far when its sender is [web-scrobbler], and never when it
    is anything else. *)
Theorem script_events_once_per_script (scriptFiles : list string)
    (sender : value) :
  let w := injectAll inherited scriptFiles freshWindow in
  scriptEventsFor sender w =
  if decide (sender = Str "web-scrobbler")
  then length (injectedScripts w)
  else 0%nat.
Proof.
  cbv zeta.
  destruct (injectAll_consistent scriptFiles freshWindow freshWindow_consistent)
    as (_ & Hlen & _).
  unfold scriptEventsFor. rewrite Hlen.
  destruct (decide (sender = Str "web-scrobbler")) as [-> | Hne].
  - reflexivity.
  - destruct (strict_eq sender (Str "web-scrobbler")) eqn:E; [|reflexivity].
    apply strict_eq_true in E. contradiction.
Qed.

End Inject.

(** ** Half-width katakana *)

Section Katakana.

Import JsText Recmusic.

Lemma table_checked :
  Forall (fun u => tableEntryOk u = true) (seqZ 65377 61).
Proof.
  apply (bool_decide_unpack
           (Forall (fun u => tableEntryOk u = true) (seqZ 65377 61))).
  vm_compute. reflexivity.
Qed.

Lemma table_entry (u : Z) :
  65377 <= u <= 65437 ->
  exists z, katakanaHanToZenMap !! [u] = Some [z] /\ 12288 <= z <= 12543.
Proof.
  intros Hu.
  assert (Hin : u ∈ seqZ 65377 61) by (apply elem_of_seqZ; lia).
  pose proof (proj1 (Forall_forall _ _) table_checked u Hin) as H.
  unfold tableEntryOk in H.
  destruct (katakanaHanToZenMap !! [u]) as [[|z [|z' l]]|]; try discriminate H.
  exists z. split; [reflexivity|].
  apply andb_true_iff in H as [H1 H2].
  apply Z.leb_le in H1. apply Z.leb_le in H2. lia.
Qed.

Lemma katakanaLoop_thrown (characters : list (list Z)) :
  foldl katakanaLoop None characters = None.
Proof. induction characters as [|ch chs IH]; [reflexivity | exact IH]. Qed.

(** A surrogate is neither in the table nor a sound mark. *)
Lemma surrogate_pair_step (out : list Z) (h l : Z) :
  isHighSurrogate h && isLowSurrogate l = true ->
  katakanaStep out [h; l] = Some (out ++ [h; l]) /\
  katakanaLoop (katakanaStep out [h]) [l] = Some (out ++ [h; l]).
Proof.
  unfold isHighSurrogate, isLowSurrogate. intros H.
  apply andb_true_iff in H as [Hh Hl].
  apply andb_true_iff in Hh as [Hh1 Hh2].
  apply andb_true_iff in Hl as [Hl1 Hl2].
  apply Z.leb_le in Hh1, Hh2, Hl1, Hl2.
  assert (E1 : (65377 <=? h) = false) by (apply Z.leb_gt; lia).
  assert (E2 : (h =? 65438) = false) by (apply Z.eqb_neq; lia).
  assert (E3 : (h =? 65439) = false) by (apply Z.eqb_neq; lia).
  assert (E4 : (65377 <=? l) = false) by (apply Z.leb_gt; lia).
  assert (E5 : (l =? 65438) = false) by (apply Z.eqb_neq; lia).
  assert (E6 : (l =? 65439) = false) by (apply Z.eqb_neq; lia).
  unfold katakanaLoop, katakanaStep. cbn [head].
  rewrite E1, E2, E3. cbn [andb orb]. rewrite E4, E5, E6. cbn [andb orb].
  split; [reflexivity|]. by rewrite <- app_assoc.
Qed.

Lemma characters_two (h l : Z) (rest : list Z) :
  characters (h :: l :: rest) =
  if isHighSurrogate h && isLowSurrogate l
  then [h; l] :: characters rest
  else [h] :: characters (l :: rest).
Proof. reflexivity. Qed.

(** Going through the characters comes to the same as going through the
    code units. *)
Lemma characters_unitwise (n : nat) :
  forall (text : list Z) (acc : option (list Z)),
    (length text <= n)%nat ->
    foldl katakanaLoop acc (characters text) =
    foldl katakanaLoop acc ((fun u => [u]) <$> text).
Proof.
  induction n as [|n IH]; intros text acc Hlen.
  - destruct text; [reflexivity | cbn in Hlen; lia].
  - destruct text as [|h [|l rest]]; [reflexivity | reflexivity |].
    rewrite characters_two. cbn [length] in Hlen.
    destruct (isHighSurrogate h && isLowSurrogate l) eqn:E.
    + cbn [foldl fmap list_fmap]. rewrite IH by lia.
      f_equal. destruct acc as [out|]; [|reflexivity].
      cbn [katakanaLoop].
      destruct (surrogate_pair_step out h l E) as [-> H]. symmetry. exact H.
    + cbn [foldl]. rewrite IH by (cbn [length]; lia). reflexivity.
Qed.

Lemma katakanaHanToZen_unitwise (text : list Z) :
  katakanaHanToZen text = foldl katakanaLoop (Some []) ((fun u => [u]) <$> text).
Proof. unfold katakanaHanToZen. by apply (characters_unitwise (length text)). Qed.

(** One unit: what the loop appends or rewrites. *)
Lemma unit_step (out : list Z) (u : Z) :
  (65377 <= u <= 65437 /\
   exists z, 12288 <= z <= 12543 /\ katakanaStep out [u] = Some (out ++ [z])) \/
  (isSoundMark u = true /\
   katakanaStep out [u] =
     match last out with
     | Some lastCharCode =>
         Some (removelast out ++ fromCharCode (lastCharCode + u - 65437))
     | None => None
     end) \/
  (isHalfWidth u = false /\ katakanaStep out [u] = Some (out ++ [u])).
Proof.
  unfold katakanaStep, isSoundMark, isHalfWidth. cbn [head].
  destruct ((65377 <=? u) && (u <=? 65437)) eqn:Er.
  - left. apply andb_true_iff in Er as [H1 H2].
    apply Z.leb_le in H1, H2. split; [lia|].
    destruct (table_entry u) as (z & -> & Hz); [lia|].
    exists z. split; [exact Hz | reflexivity].
  - destruct ((u =? 65438) || (u =? 65439)) eqn:Em.
    + right. left. split; reflexivity.
    + right. right. split; [|reflexivity].
      apply orb_false_iff in Em as [M1 M2].
      apply Z.eqb_neq in M1, M2.
      apply andb_false_iff. apply andb_false_iff in Er as [H | H];
        apply Z.leb_gt in H; [left | right]; apply Z.leb_gt; lia.
Qed.

Lemma unitwise_nonempty (units : list Z) :
  forall out : list Z,
    out <> [] ->
    exists out', foldl katakanaLoop (Some out) ((fun u => [u]) <$> units)
                 = Some out' /\ out' <> [].
Proof.
  induction units as [|u units IH]; intros out Hout.
  - exists out. by split.
  - cbn [fmap list_fmap foldl katakanaLoop].
    destruct (unit_step out u) as [(_ & z & _ & ->) | [(_ & ->) | (_ & ->)]].
    + apply IH. intros H. by apply app_eq_nil in H as [_ H].
    + destruct (last out) as [x|] eqn:El.
      * apply IH. intros H. by apply app_eq_nil in H as [_ H].
      * apply last_None in El. contradiction.
    + apply IH. intros H. by apply app_eq_nil in H as [_ H].
Qed.

(** X16: [katakanaHanToZen] throws exactly for a text that begins with a
    sound mark, which has no character before it to modify; every other
    text, the empty one included, is converted. *)
Theorem katakanaHanToZen_throws (text : list Z) :
  katakanaHanToZen text = None <->
  exists u rest, text = u :: rest /\ isSoundMark u = true.
Proof.
  rewrite katakanaHanToZen_unitwise. destruct text as [|u rest].
  - split; [intros H; discriminate H | intros (u & rest & H & _); discriminate H].
  - cbn [fmap list_fmap foldl katakanaLoop].
    destruct (unit_step [] u) as [(Hr & z & _ & E) | [(Hm & E) | (Hh & E)]];
      rewrite E.
    + destruct (unitwise_nonempty rest ([] ++ [z])) as (out & -> & _);
        [discriminate|].
      split; [intros H; discriminate H|].
      intros (u' & rest' & H & Hm). injection H as <- <-.
      unfold isSoundMark in Hm. apply orb_true_iff in Hm as [Hm | Hm];
        apply Z.eqb_eq in Hm; lia.
    + cbn [last]. rewrite katakanaLoop_thrown.
      split; [|reflexivity]. intros _. by exists u, rest.
    + destruct (unitwise_nonempty rest ([] ++ [u])) as (out & -> & _);
        [discriminate|].
      split; [intros H; discriminate H|].
      intros (u' & rest' & H & Hm). injection H as <- <-.
      unfold isSoundMark, isHalfWidth in *.
      apply andb_false_iff in Hh.
      apply orb_true_iff in Hm as [Hm | Hm]; apply Z.eqb_eq in Hm;
        destruct Hh as [Hh | Hh]; apply Z.leb_gt in Hh; lia.
Qed.

(** X17: the table has an entry for every code unit the first test of the
    loop lets through, so [undefined] is never appended: each such unit
    becomes exactly one unit of the full-width block. *)
Theorem katakana_table_complete (u : Z) :
  65377 <= u <= 65437 ->
  exists z,
    katakanaHanToZenMap !! [u] = Some [z] /\
    12288 <= z <= 12543 /\
    katakanaHanToZen [u] = Some [z].
Proof.
  intros Hu. destruct (table_entry u Hu) as (z & Hz & Hb).
  exists z. split; [exact Hz|]. split; [exact Hb|].
  unfold katakanaHanToZen. cbn [characters foldl katakanaLoop].
  unfold katakanaStep. cbn [head].
  assert (E : (65377 <=? u) && (u <=? 65437) = true).
  { apply andb_true_iff. split; apply Z.leb_le; lia. }
  rewrite E, Hz. reflexivity.
Qed.

Lemma katakana_table_complete_witness :
  katakanaHanToZen [65398] = Some [12459].
Proof.
  destruct (katakana_table_complete 65398) as (z & Hz & _ & H); [lia|].
  rewrite H. f_equal. vm_compute in Hz. injection Hz as <-. reflexivity.
Defined.

Lemma unitwise_plain (units : list Z) :
  Forall (fun u => isHalfWidth u = false) units ->
  forall out : list Z,
    foldl katakanaLoop (Some out) ((fun u => [u]) <$> units)
    = Some (out ++ units).
Proof.
  induction 1 as [|u units Hu _ IH]; intros out.
  - cbn. by rewrite app_nil_r.
  - cbn [fmap list_fmap foldl katakanaLoop].
    destruct (unit_step out u) as [(Hr & _) | [(Hm & _) | (_ & ->)]].
    + unfold isHalfWidth in Hu. apply andb_false_iff in Hu as [H | H];
        apply Z.leb_gt in H; lia.
    + unfold isHalfWidth in Hu. unfold isSoundMark in Hm.
      apply orb_true_iff in Hm as [Hm | Hm]; apply Z.eqb_eq in Hm;
        apply andb_false_iff in Hu as [H | H]; apply Z.leb_gt in H; lia.
    + rewrite IH, <- app_assoc. reflexivity.
Qed.

(** X18: a text without a code unit of the half-width block comes back
    unchanged, surrogate pairs included. *)
Theorem katakanaHanToZen_leaves_other_text (text : list Z) :
  Forall (fun u => isHalfWidth u = false) text ->
  katakanaHanToZen text = Some text.
Proof.
  intros H. rewrite katakanaHanToZen_unitwise.
  exact (unitwise_plain text H []).
Qed.

Lemma katakanaHanToZen_leaves_other_text_witness :
  katakanaHanToZen [82; 111; 99; 107; 55356; 57269; 12459] =
  Some [82; 111; 99; 107; 55356; 57269; 12459].
Proof.
  apply katakanaHanToZen_leaves_other_text.
  repeat (apply Forall_cons; split; [reflexivity|]). apply Forall_nil.
  exact I.
Defined.

Lemma unitwise_markfree (units : list Z) :
  Forall (fun u => isSoundMark u = false) units ->
  forall out : list Z,
    exists new,
      foldl katakanaLoop (Some out) ((fun u => [u]) <$> units)
      = Some (out ++ new) /\
      length new = length units /\
      Forall (fun u => isHalfWidth u = false) new.
Proof.
  induction 1 as [|u units Hu _ IH]; intros out.
  - exists []. cbn. rewrite app_nil_r. by conjuncts.
  - cbn [fmap list_fmap foldl katakanaLoop].
    destruct (unit_step out u) as [(_ & z & Hz & ->) | [(Hm & _) | (Hh & ->)]].
    + destruct (IH (out ++ [z])) as (new & -> & Hlen & Hall).
      exists (z :: new). rewrite <- app_assoc. conjuncts.
      * reflexivity.
      * cbn [length]. by rewrite Hlen.
      * apply Forall_cons. split; [|exact Hall].
        unfold isHalfWidth. apply andb_false_iff. left. apply Z.leb_gt. lia.
    + rewrite Hm in Hu. discriminate Hu.
    + destruct (IH (out ++ [u])) as (new & -> & Hlen & Hall).
      exists (u :: new). rewrite <- app_assoc. conjuncts.
      * reflexivity.
      * cbn [length]. by rewrite Hlen.
      * apply Forall_cons. by split.
Qed.

(** X19: on a text without sound marks the conversion replaces unit by
    unit, leaves no code unit of the half-width block behind, and changes
    nothing when it is applied to its own output. *)
Theorem katakanaHanToZen_markfree (text : list Z) :
  Forall (fun u => isSoundMark u = false) text ->
  exists out,
    katakanaHanToZen text = Some out /\
    length out = length text /\
    Forall (fun u => isHalfWidth u = false) out /\
    katakanaHanToZen out = Some out.
Proof.
  intros H. destruct (unitwise_markfree text H []) as (out & Hout & Hlen & Hall).
  exists out. conjuncts.
  - rewrite katakanaHanToZen_unitwise. exact Hout.
  - exact Hlen.
  - exact Hall.
  - rewrite katakanaHanToZen_unitwise. exact (unitwise_plain out Hall []).
Qed.

Lemma katakanaHanToZen_markfree_witness :
  exists out,
    katakanaHanToZen [65398; 65437; 65392; 33] = Some out /\
    length out = 4%nat.
Proof.
  destruct (katakanaHanToZen_markfree [65398; 65437; 65392; 33])
    as (out & H & Hlen & _).
  - repeat (apply Forall_cons; split; [reflexivity|]). apply Forall_nil.
    exact I.
  - exists out. split; [exact H | exact Hlen].
Defined.

Lemma unitwise_length (units : list Z) :
  forall out result : list Z,
    foldl katakanaLoop (Some out) ((fun u => [u]) <$> units) = Some result ->
    length result =
    (length out + length (filter (fun u => isSoundMark u = false) units))%nat.
Proof.
  induction units as [|u units IH]; intros out result.
  - cbn. intros H. injection H as <-. lia.
  - cbn [fmap list_fmap foldl katakanaLoop].
    destruct (unit_step out u) as [(Hr & z & _ & ->) | [(Hm & ->) | (Hh & ->)]].
    + intros H. rewrite (IH _ _ H), length_app. cbn [length].
      rewrite filter_cons_True; [cbn [length]; lia|].
      unfold isSoundMark. apply orb_false_iff.
      split; apply Z.eqb_neq; lia.
    + rewrite filter_cons_False by (rewrite Hm; discriminate).
      destruct (last out) as [x|] eqn:El.
      * apply last_Some in El as (out' & ->).
        rewrite removelast_last. intros H.
        rewrite (IH _ _ H), !length_app. reflexivity.
      * rewrite katakanaLoop_thrown. intros H. discriminate H.
    + intros H. rewrite (IH _ _ H), length_app. cbn [length].
      rewrite filter_cons_True; [cbn [length]; lia|].
      unfold isSoundMark, isHalfWidth in *. apply orb_false_iff.
      apply andb_false_iff in Hh.
      split; apply Z.eqb_neq; destruct Hh as [H' | H'];
        apply Z.leb_gt in H'; lia.
Qed.

(** X20: when the conversion returns, its output has one code unit for
    every code unit of the text that is no sound mark: a sound mark never
    adds a unit, it rewrites the one before it. *)
Theorem katakanaHanToZen_length (text out : list Z) :
  katakanaHanToZen text = Some out ->
  length out = length (filter (fun u => isSoundMark u = false) text).
Proof.
  rewrite katakanaHanToZen_unitwise. intros H.
  rewrite (unitwise_length text [] out H). reflexivity.
Qed.

Lemma katakanaHanToZen_length_witness :
  katakanaHanToZen [65398; 65438; 65418; 65439] = Some [12460; 12497] /\
  length [12460; 12497] = 2%nat.
Proof.
  assert (H : katakanaHanToZen [65398; 65438; 65418; 65439]
              = Some [12460; 12497]) by (vm_compute; reflexivity).
  split; [exact H|].
  rewrite (katakanaHanToZen_length _ _ H). reflexivity.
Defined.

End Katakana.

(** ** Track art of YouTube Music *)

Section TrackArt.

Import JsText.

Lemma lastIndexFrom_absent (c : Z) (s : list Z) :
  c ∉ s -> forall i found, lastIndexFrom c s i found = found.
Proof.
  induction s as [|u s IH]; intros Hc i found; [reflexivity|].
  apply not_elem_of_cons in Hc as [Hne Hc]. cbn [lastIndexFrom].
  assert (E : (u =? c) = false) by (apply Z.eqb_neq; congruence).
  rewrite E. by apply IH.
Qed.

Lemma lastIndexFrom_last (c : Z) (pre suf : list Z) :
  c ∉ suf ->
  forall i found,
    lastIndexFrom c (pre ++ c :: suf) i found = i + Z.of_nat (length pre).
Proof.
  intros Hc. induction pre as [|u pre IH]; intros i found.
  - cbn [app lastIndexFrom length]. rewrite Z.eqb_refl.
    rewrite lastIndexFrom_absent by exact Hc. lia.
  - cbn [app lastIndexFrom]. rewrite IH. cbn [length]. lia.
Qed.

Lemma substring_prefix (n : nat) (s : list Z) :
  (n <= length s)%nat -> substring 0 (Z.of_nat n) s = take n s.
Proof.
  intros H. unfold substring. cbv zeta.
  replace (Z.max 0 (Z.min 0 (Z.of_nat (length s)))) with 0 by lia.
  replace (Z.max 0 (Z.min (Z.of_nat n) (Z.of_nat (length s))))
    with (Z.of_nat n) by lia.
  replace (Z.min 0 (Z.of_nat n)) with 0 by lia.
  replace (Z.max 0 (Z.of_nat n) - 0) with (Z.of_nat n) by lia.
  rewrite Nat2Z.id. reflexivity.
Qed.

Lemma substring_negative (s : list Z) : substring 0 (-1) s = [].
Proof.
  unfold substring. cbv zeta.
  replace (Z.max 0 (Z.min 0 (Z.of_nat (length s)))) with 0 by lia.
  replace (Z.max 0 (Z.min (-1) (Z.of_nat (length s)))) with 0 by lia.
  reflexivity.
Qed.

(** X21: the track art of YouTube Music is the URL up to its last [=].
    A URL without any [=] gives the empty string, not the URL; no URL and
    the empty URL give [null]. *)
Theorem youtubeMusic_trackArt_cut :
  (forall pre suf : list Z,
     61 ∉ suf ->
     YoutubeMusic.getTrackArt (Some (pre ++ 61 :: suf)) = Some pre) /\
  (forall u url,
     61 ∉ u :: url -> YoutubeMusic.getTrackArt (Some (u :: url)) = Some []) /\
  YoutubeMusic.getTrackArt (Some []) = None /\
  YoutubeMusic.getTrackArt None = None.
Proof.
  conjuncts; try reflexivity.
  - intros pre suf Hsuf.
    assert (Hcut : substring 0 (lastIndexOf 61 (pre ++ 61 :: suf))
                     (pre ++ 61 :: suf) = pre).
    { unfold lastIndexOf. rewrite lastIndexFrom_last by exact Hsuf.
      rewrite Z.add_0_l, substring_prefix.
      - apply take_app_length.
      - rewrite length_app. lia. }
    unfold YoutubeMusic.getTrackArt.
    destruct (pre ++ 61 :: suf) as [|u url] eqn:E.
    + destruct pre; discriminate E.
    + rewrite Hcut. reflexivity.
  - intros u url Habsent. unfold YoutubeMusic.getTrackArt, lastIndexOf.
    rewrite lastIndexFrom_absent by exact Habsent.
    rewrite substring_negative. reflexivity.
Qed.

Lemma youtubeMusic_trackArt_cut_witness :
  YoutubeMusic.getTrackArt
    (Some [104; 116; 116; 112; 47; 97; 61; 119; 49; 61; 104; 50]) =
  Some [104; 116; 116; 112; 47; 97; 61; 119; 49] /\
  YoutubeMusic.getTrackArt (Some [104; 116; 116; 112]) = Some [].
Proof.
  destruct youtubeMusic_trackArt_cut as (Hcut & Hnone & _).
  split.
  - apply (Hcut [104; 116; 116; 112; 47; 97; 61; 119; 49] [104; 50]).
    intros H. repeat (apply elem_of_cons in H as [H | H]; [discriminate H|]).
    destruct (proj1 (elem_of_nil _) H).
  - apply Hnone.
    intros H. repeat (apply elem_of_cons in H as [H | H]; [discriminate H|]).
    destruct (proj1 (elem_of_nil _) H).
Defined.

End TrackArt.

(** ** The pipeline when every stage resolves *)

(** X22: what the test of the pipeline expects.  When every stage
    resolves, [process] resolves and has called every stage exactly once,
    in the order of the list; stages that leave the track alone, like the
    dummy processors of the test, hand it back unchanged. *)
Theorem process_executes_all_stages {Song Error : Type}
    (stages : list (SongPipeline.Stage Song Error)) (song : Song) :
  (forall stage, stage ∈ stages -> forall s, (stage s).2 = None) ->
  SongPipeline.rejection (SongPipeline.process stages song) = None /\
  SongPipeline.called (SongPipeline.process stages song) = stages /\
  ((forall stage, stage ∈ stages -> forall s, (stage s).1 = s) ->
   SongPipeline.track (SongPipeline.process stages song) = song).
Proof.
  revert song. induction stages as [|stage stages IH]; intros song Hres.
  - cbn. by conjuncts.
  - cbn [SongPipeline.process].
    pose proof (Hres stage (list_elem_of_here _ _) song) as Hs.
    destruct (stage song) as [song' r] eqn:E. cbn [snd] in Hs. subst r.
    destruct (IH song') as (Hr & Hc & Ht).
    { intros st Hin. apply Hres. by right. }
    cbn [SongPipeline.rejection SongPipeline.called SongPipeline.track].
    conjuncts.
    + exact Hr.
    + by rewrite Hc.
    + intros Hid.
      pose proof (Hid stage (list_elem_of_here _ _) song) as Hsame.
      rewrite E in Hsame. cbn [fst] in Hsame. subst song'.
      apply Ht. intros st Hin. apply Hid. by right.
Qed.

Lemma process_executes_all_stages_witness :
  let createDummyProcessor : SongPipeline.Stage (list string) string :=
    fun song => (song, None) in
  length (SongPipeline.called
            (SongPipeline.process
               [createDummyProcessor; createDummyProcessor] ["stub"])) = 2%nat /\
  SongPipeline.track
    (SongPipeline.process [createDummyProcessor; createDummyProcessor]
       ["stub"]) = ["stub"].
Proof.
  cbv zeta.
  destruct (process_executes_all_stages
              [fun song : list string => (song, @None string);
               fun song : list string => (song, @None string)] ["stub"])
    as (_ & Hc & Ht).
  - intros stage Hin s.
    repeat (apply elem_of_cons in Hin as [-> | Hin]; [reflexivity|]).
    destruct (proj1 (elem_of_nil _) Hin).
  - split; [exact (f_equal (@length _) Hc)|].
    apply Ht. intros stage Hin s.
    repeat (apply elem_of_cons in Hin as [-> | Hin]; [reflexivity|]).
    destruct (proj1 (elem_of_nil _) Hin).
Defined.

(** ** What the reactor gets to see *)


Lemma worker_calls_wellFormed (p : Page) (c : Connector) :
  shaped (currentState c) -> shaped (filteredState c) ->
  exists new,
    calls (stateChangedWorker p c) = calls c ++ new /\
    Forall wellFormedCall new.
Proof.
  intros Hc Hf. rewrite worker_calls. eexists. split; [reflexivity|].
  destruct (reactorCallback c); [|constructor].
  destruct (changeSet p c) as [|f changed] eqn:E; [constructor|].
  apply Forall_cons. split; [|constructor].
  right. cbn [fst snd]. conjuncts.
  - by apply worker_shaped.
  - discriminate.
  - rewrite <- E. apply diff_changed_sublist.
Qed.

Lemma step_calls_wellFormed (e : event) (c : Connector) :
  shaped (currentState c) -> shaped (filteredState c) ->
  exists new,
    calls (step e c) = calls c ++ new /\ Forall wellFormedCall new.
Proof.
  intros Hc Hf.
  assert (Hsame : forall c0, calls c0 = calls c ->
             exists new, calls c0 = calls c ++ new /\
                         Forall wellFormedCall new).
  { intros c0 ->. exists []. split; [symmetry; apply app_nil_r | constructor]. }
  assert (Hreset : exists new,
             calls (resetState c) = calls c ++ new /\
             Forall wellFormedCall new).
  { rewrite resetState_calls.
    destruct (negb (isStateReset c) && reactorCallback c).
    - eexists. split; [reflexivity|].
      apply Forall_cons. split; [by left | constructor].
    - exists []. split; [symmetry; apply app_nil_r | constructor]. }
  destruct e as [now p | p | ]; cbn [step].
  - unfold onStateChanged.
    destruct (truthy (isScrobblingAllowed p)); cbn [negb]; [|exact Hreset].
    destruct (truthy (isStateChangeAllowed p)); cbn [negb];
      [|by apply Hsame].
    cbv zeta. destruct (negb _).
    + apply (worker_calls_wellFormed p (with_isStateReset false c) Hc Hf).
    + apply Hsame.
      destruct (throttled_frame now (with_isStateReset false c))
        as (_ & _ & _ & _ & H & _).
      exact H.
  - unfold timerFired. destruct (timer c) as [due|]; [|by apply Hsame].
    apply (worker_calls_wellFormed p (noteFired due (with_timer None c)) Hc Hf).
  - exact Hreset.
Qed.

(** X23: every call of the reactor names at least one changed field and
    names fields of the state only.  It is either the call of a reset,
    with the empty object and all field names, or the call of an
    evaluation, whose object owns all eight fields. *)
Theorem reactor_calls_wellFormed (es : list event) (withReactor : bool) :
  Forall wellFormedCall (calls (run es (freshConnector withReactor))).
Proof.
  assert (H : forall c,
             shaped (currentState c) -> shaped (filteredState c) ->
             Forall wellFormedCall (calls c) ->
             Forall wellFormedCall (calls (run es c))).
  { unfold run. induction es as [|e es IH]; intros c Hc Hf Hcalls;
      cbn [foldl]; [exact Hcalls|].
    destruct (step_shaped e c (conj Hc Hf)) as [Hc' Hf'].
    destruct (step_calls_wellFormed e c Hc Hf) as (new & Hnew & Hall).
    apply IH; [exact Hc' | exact Hf' |].
    rewrite Hnew. apply Forall_app. by split. }
  apply H; [exact defaultState_shaped | exact defaultState_shaped | constructor].
Qed.

(** X24: a reset does not make the connector report the song again.  An
    evaluation of the same document right after a reset finds nothing
    changed and calls nobody, although the consumer has just been told to
    forget the song. *)
Theorem reset_does_not_replay (p : Page) (c : Connector) :
  let c1 := resetState (stateChangedWorker p c) in
  changeSet p c1 = [] /\
  calls (stateChangedWorker p c1) = calls c1 /\
  filteredState (stateChangedWorker p c1) =
    filteredState (stateChangedWorker p c).
Proof.
  cbv zeta.
  destruct (resetState_frame (stateChangedWorker p c)) as (Hc & Hf & _).
  assert (Hcs : changeSet p (resetState (stateChangedWorker p c)) = []).
  { rewrite Hc, worker_currentState, diff_settled. reflexivity. }
  destruct (worker_quiet p _ Hcs) as [Hq1 Hq2].
  split; [exact Hcs|]. split; [exact Hq2|]. rewrite Hq1. exact Hf.
Qed.
